(** * Todopus (Opus): storage rules, row-level security and task hooks

    A shallow embedding of
    - the consolidated Supabase migration (tables, foreign keys with their
      ON DELETE actions, the updated_at trigger and the row-level-security
      policies), and
    - the React-Query hooks of [hooks/useTasks.ts] and [hooks/useProjects.ts]
      that read and write the [tasks] and [projects] tables.

    Tables are lists of rows.  A policy is the boolean function its USING /
    WITH CHECK expression denotes, evaluated for [auth.uid() = uid] against
    the stored tables ([policies_on_visible_rows] shows that reading only
    the rows the caller's own SELECT policies show gives the same
    decisions).  Foreign-key actions (ON DELETE CASCADE / SET NULL) run on
    the stored tables whoever the caller is.

    The development has two layers.  The first says what the statement of
    each hook computes on the rows once it is evaluated: a function from
    the store (and the caller, and the clock where the code reads it) to
    the new store and the value or error of the statement; these
    definitions carry the hooks' names.  The second, [Request], is the hook
    as the app runs it for a signed-in user: PostgREST resolves the
    embedded resources of the select, Postgres expands the policies of the
    statement, and only a statement that gets past both is evaluated.  With
    the policies of the migration no statement does
    ([policies_never_expand]): the policies on [projects] and
    [project_shares] read each other, and every statement on [projects],
    [project_shares], [sections] and [tasks] that reaches Postgres is
    answered with 42P17.  The theorems on [Request] are proved for a
    request that is refused and for one that is evaluated alike. *)

From Stdlib Require Import List String Bool ZArith Lia Sorted.
From stdpp Require Import gmap strings list.
Import ListNotations.
Open Scope string_scope.
Open Scope list_scope.

Set Default Proof Using "Type".

(** ** Column types *)

(** UUID, DATE, TIME and TIMESTAMPTZ columns reach the client as strings
    ([types/index.ts]). *)
Definition uuid := string.
Definition date := string.
Definition timestamp := string.

(** [CREATE TYPE task_status AS ENUM ('open', 'done', 'cancelled')] *)
Inductive TaskStatus := open | done | cancelled.

(** [CREATE TYPE share_permission AS ENUM ('view', 'edit', 'admin')] *)
Inductive SharePermission := view | edit | admin.

Definition TaskStatus_eqb (a b : TaskStatus) : bool :=
  match a, b with
  | open, open | done, done | cancelled, cancelled => true
  | _, _ => false
  end.

(** [x = y] on a nullable column: NULL compares to nothing. *)
Definition col_eqb (c : option uuid) (v : uuid) : bool :=
  match c with
  | Some x => String.eqb x v
  | None => false
  end.

Definition is_null {A} (c : option A) : bool :=
  match c with
  | None => true
  | Some _ => false
  end.

(** Membership of an id in a list of ids. *)
Definition mem (v : uuid) (l : list uuid) : bool := existsb (String.eqb v) l.

Definition col_mem (c : option uuid) (l : list uuid) : bool :=
  match c with
  | Some x => mem x l
  | None => false
  end.

(** ** Rows *)

Module Project.
Record t := mk {
  id : uuid;
  owner_id : uuid;
  parent_id : option uuid;
  name : string;
  description : option string;
  color : string;
  sort_order : Z;
  is_archived : bool;
  todoist_id : option string;
  created_at : timestamp;
  updated_at : timestamp
}.
End Project.

Module ProjectShare.
Record t := mk {
  id : uuid;
  project_id : uuid;
  shared_with_user_id : uuid;
  permission : SharePermission;
  created_at : timestamp
}.
End ProjectShare.

Module Section_.
Record t := mk {
  id : uuid;
  project_id : uuid;
  name : string;
  sort_order : Z;
  todoist_id : option string;
  created_at : timestamp
}.
End Section_.

Module Task.
Record t := mk {
  id : uuid;
  owner_id : uuid;
  project_id : option uuid;
  section_id : option uuid;
  parent_task_id : option uuid;
  title : string;
  description : option string;
  status : TaskStatus;
  priority : Z;
  due_date : option date;
  due_time : option string;
  deadline : option date;
  recurrence_rule : option string;
  recurrence_base_date : option date;
  blocked_by : option uuid;
  sort_order : Z;
  completed_at : option timestamp;
  todoist_id : option string;
  created_at : timestamp;
  updated_at : timestamp
}.

(** [NEW.updated_at = NOW()], the body of [update_updated_at_column]. *)
Definition touch (now : timestamp) (r : t) : t :=
  mk (id r) (owner_id r) (project_id r) (section_id r) (parent_task_id r)
     (title r) (description r) (status r) (priority r) (due_date r)
     (due_time r) (deadline r) (recurrence_rule r) (recurrence_base_date r)
     (blocked_by r) (sort_order r) (completed_at r) (todoist_id r)
     (created_at r) now.

Definition set_project_id (v : option uuid) (r : t) : t :=
  mk (id r) (owner_id r) v (section_id r) (parent_task_id r)
     (title r) (description r) (status r) (priority r) (due_date r)
     (due_time r) (deadline r) (recurrence_rule r) (recurrence_base_date r)
     (blocked_by r) (sort_order r) (completed_at r) (todoist_id r)
     (created_at r) (updated_at r).

Definition set_section_id (v : option uuid) (r : t) : t :=
  mk (id r) (owner_id r) (project_id r) v (parent_task_id r)
     (title r) (description r) (status r) (priority r) (due_date r)
     (due_time r) (deadline r) (recurrence_rule r) (recurrence_base_date r)
     (blocked_by r) (sort_order r) (completed_at r) (todoist_id r)
     (created_at r) (updated_at r).

Definition set_blocked_by (v : option uuid) (r : t) : t :=
  mk (id r) (owner_id r) (project_id r) (section_id r) (parent_task_id r)
     (title r) (description r) (status r) (priority r) (due_date r)
     (due_time r) (deadline r) (recurrence_rule r) (recurrence_base_date r)
     v (sort_order r) (completed_at r) (todoist_id r)
     (created_at r) (updated_at r).
End Task.

(** The store: one list of rows per table. *)
Record DB := mkDB {
  projects : list Project.t;
  project_shares : list ProjectShare.t;
  sections : list Section_.t;
  tasks : list Task.t
}.

(** ** Row-level security

    Every policy below is PERMISSIVE (the default), so the policies that
    apply to a command are OR-ed.  A [FOR ALL] policy applies to SELECT,
    INSERT, UPDATE and DELETE; without a WITH CHECK clause its USING
    expression is also its check on new rows. *)

Section Policies.
Variable db : DB.
(** [auth.uid()] *)
Variable uid : uuid.

(** [EXISTS (SELECT 1 FROM project_shares
             WHERE project_shares.project_id = projects.id
             AND project_shares.shared_with_user_id = auth.uid())] *)
Definition share_exists (pid : uuid) : bool :=
  existsb (fun s =>
             String.eqb (ProjectShare.project_id s) pid
             && String.eqb (ProjectShare.shared_with_user_id s) uid)
          (project_shares db).

(** The same with [AND project_shares.permission IN ('edit', 'admin')]. *)
Definition permission_in_edit_admin (p : SharePermission) : bool :=
  match p with
  | edit | admin => true
  | view => false
  end.

Definition edit_share_exists (pid : uuid) : bool :=
  existsb (fun s =>
             String.eqb (ProjectShare.project_id s) pid
             && String.eqb (ProjectShare.shared_with_user_id s) uid
             && permission_in_edit_admin (ProjectShare.permission s))
          (project_shares db).

(** [EXISTS (SELECT 1 FROM projects WHERE projects.id = <fk> AND cond)] *)
Definition project_exists (fk : option uuid) (cond : Project.t -> bool) : bool :=
  existsb (fun p => col_eqb fk (Project.id p) && cond p) (projects db).

Definition owned_or_shared (p : Project.t) : bool :=
  String.eqb (Project.owner_id p) uid || share_exists (Project.id p).

Definition owned_or_edit_shared (p : Project.t) : bool :=
  String.eqb (Project.owner_id p) uid || edit_share_exists (Project.id p).

(** *** PROJECTS policies *)

(** "Users can view own projects" *)
Definition projects_view_own (p : Project.t) : bool :=
  String.eqb (Project.owner_id p) uid.

(** "Users can view shared projects" *)
Definition projects_view_shared (p : Project.t) : bool :=
  share_exists (Project.id p).

(** "Users can delete own projects" *)
Definition projects_delete_own (p : Project.t) : bool :=
  String.eqb (Project.owner_id p) uid.

Definition projects_select (p : Project.t) : bool :=
  projects_view_own p || projects_view_shared p.

Definition projects_delete (p : Project.t) : bool := projects_delete_own p.

(** *** PROJECT_SHARES policies *)

(** "Owners can manage shares" (FOR ALL) *)
Definition shares_owners_manage (s : ProjectShare.t) : bool :=
  project_exists (Some (ProjectShare.project_id s))
                 (fun p => String.eqb (Project.owner_id p) uid).

(** "Admins can manage shares" (FOR ALL) *)
Definition shares_admins_manage (s : ProjectShare.t) : bool :=
  existsb (fun ps =>
             String.eqb (ProjectShare.project_id ps) (ProjectShare.project_id s)
             && String.eqb (ProjectShare.shared_with_user_id ps) uid
             && match ProjectShare.permission ps with admin => true | _ => false end)
          (project_shares db).

(** "Users can view their own shares" *)
Definition shares_view_own (s : ProjectShare.t) : bool :=
  String.eqb (ProjectShare.shared_with_user_id s) uid.

Definition shares_select (s : ProjectShare.t) : bool :=
  shares_owners_manage s || shares_admins_manage s || shares_view_own s.

Definition shares_insert_check (s : ProjectShare.t) : bool :=
  shares_owners_manage s || shares_admins_manage s.

(** *** SECTIONS policies *)

(** "Users can view sections of accessible projects" *)
Definition sections_view_accessible (s : Section_.t) : bool :=
  project_exists (Some (Section_.project_id s)) owned_or_shared.

(** "Users can modify sections of editable projects" (FOR ALL) *)
Definition sections_modify_editable (s : Section_.t) : bool :=
  project_exists (Some (Section_.project_id s)) owned_or_edit_shared.

Definition sections_select (s : Section_.t) : bool :=
  sections_view_accessible s || sections_modify_editable s.

(** INSERT, UPDATE and DELETE on sections have the FOR ALL policy only. *)
Definition sections_write (s : Section_.t) : bool :=
  sections_modify_editable s.

(** *** TASKS policies *)

(** "Users can view own inbox tasks" *)
Definition tasks_view_own_inbox (t : Task.t) : bool :=
  String.eqb (Task.owner_id t) uid && is_null (Task.project_id t).

(** "Users can insert own inbox tasks" (WITH CHECK) *)
Definition tasks_insert_own_inbox (t : Task.t) : bool :=
  String.eqb (Task.owner_id t) uid && is_null (Task.project_id t).

(** "Users can update own inbox tasks": USING, then WITH CHECK *)
Definition tasks_update_own_inbox_using (t : Task.t) : bool :=
  String.eqb (Task.owner_id t) uid && is_null (Task.project_id t).

Definition tasks_update_own_inbox_check (t : Task.t) : bool :=
  String.eqb (Task.owner_id t) uid.

(** "Users can delete own inbox tasks" *)
Definition tasks_delete_own_inbox (t : Task.t) : bool :=
  String.eqb (Task.owner_id t) uid && is_null (Task.project_id t).

(** "Users can view tasks in accessible projects" *)
Definition tasks_view_accessible (t : Task.t) : bool :=
  negb (is_null (Task.project_id t))
  && project_exists (Task.project_id t) owned_or_shared.

(** "Users can modify own tasks in projects" (FOR ALL) *)
Definition tasks_modify_own_in_projects (t : Task.t) : bool :=
  negb (is_null (Task.project_id t))
  && String.eqb (Task.owner_id t) uid
  && project_exists (Task.project_id t) owned_or_shared.

(** "Users can modify tasks in editable shared projects" (FOR UPDATE) *)
Definition tasks_modify_editable_shared (t : Task.t) : bool :=
  negb (is_null (Task.project_id t))
  && project_exists (Task.project_id t)
       (fun p => edit_share_exists (Project.id p)).

(** "Users can insert tasks in projects" (WITH CHECK) *)
Definition tasks_insert_in_projects (t : Task.t) : bool :=
  String.eqb (Task.owner_id t) uid
  && negb (is_null (Task.project_id t))
  && project_exists (Task.project_id t) owned_or_edit_shared.

(** The policies of each command, OR-ed. *)
Definition tasks_select (t : Task.t) : bool :=
  tasks_view_own_inbox t || tasks_view_accessible t
  || tasks_modify_own_in_projects t.

Definition tasks_insert_check (t : Task.t) : bool :=
  tasks_insert_own_inbox t || tasks_insert_in_projects t
  || tasks_modify_own_in_projects t.

Definition tasks_update_using (t : Task.t) : bool :=
  tasks_update_own_inbox_using t || tasks_modify_own_in_projects t
  || tasks_modify_editable_shared t.

Definition tasks_update_check (t : Task.t) : bool :=
  tasks_update_own_inbox_check t || tasks_modify_own_in_projects t
  || tasks_modify_editable_shared t.

Definition tasks_delete (t : Task.t) : bool :=
  tasks_delete_own_inbox t || tasks_modify_own_in_projects t.
End Policies.

(** The visibility predicates of the specification, as the store decides
    them. *)
Definition canRead (db : DB) (u : uuid) (t : Task.t) : bool := tasks_select db u t.

(** Modelled from the spec: the permission resolver of section 4.1, which
    the repository does not contain as a function (the policies above
    re-derive access in place).  Owner gives [admin]; otherwise the
    (project, user) share row gives its permission; otherwise [none]. *)
Inductive AccessLevel := none | level (p : SharePermission).

Definition resolve (db : DB) (u : uuid) (p : Project.t) : AccessLevel :=
  if String.eqb u (Project.owner_id p) then level admin
  else
    match List.find (fun s =>
                  String.eqb (ProjectShare.project_id s) (Project.id p)
                  && String.eqb (ProjectShare.shared_with_user_id s) u)
               (project_shares db) with
    | Some s => level (ProjectShare.permission s)
    | None => none
    end.

(** ** PostgREST outcomes

    A supabase-js call resolves to [{ data, error }]; every hook does
    [if (error) throw error].  [Ok] is the resolved value of the hook's
    promise, [Err] the error it rejects with. *)
Inductive PostgrestError :=
| PGRST116                 (* .single(): the result is not exactly one row *)
| insufficient_privilege   (* 42501: row violates row-level security policy *)
| check_violation          (* 23514: CHECK(priority BETWEEN 0 AND 3) *)
| foreign_key_violation    (* 23503 *)
| unique_violation         (* 23505 *)
| invalid_object_definition (* 42P17: infinite recursion detected in policy *)
| PGRST200                 (* no relationship found for an embedded resource *)
| PGRST201.                (* more than one relationship for an embedded resource *)

Inductive Result (A : Type) :=
| Ok (a : A)
| Err (e : PostgrestError).
Arguments Ok {A} a.
Arguments Err {A} e.

(** [.single()]: exactly one row, or PGRST116. *)
Definition single {A} (rows : list A) : Result A :=
  match rows with
  | [r] => Ok r
  | _ => Err PGRST116
  end.

(** JavaScript truthiness of a [string | null | undefined]. *)
Definition truthy (s : option string) : bool :=
  match s with
  | Some v => negb (String.eqb v "")
  | None => false
  end.

(** ** The object passed to [.update(...)] by [useUpdateTask]

    [UpdateTaskInput] of [types/index.ts]: every key is optional; an absent
    key leaves the column alone, a present one overwrites it (with NULL
    when the value is [null]). *)
Module UpdateTaskInput.
Record t := mk {
  title : option string;
  project_id : option (option uuid);
  section_id : option (option uuid);
  description : option (option string);
  status : option TaskStatus;
  priority : option Z;
  due_date : option (option date);
  due_time : option (option string);
  deadline : option (option date);
  blocked_by : option (option uuid);
  sort_order : option Z;
  completed_at : option (option timestamp)
}.

Definition empty : t :=
  mk None None None None None None None None None None None None.

Definition or_keep {A} (o : option A) (old : A) : A :=
  match o with
  | Some v => v
  | None => old
  end.

(** [UPDATE tasks SET <keys of input> ...] on one row. *)
Definition apply (i : t) (r : Task.t) : Task.t :=
  Task.mk (Task.id r) (Task.owner_id r)
    (or_keep (project_id i) (Task.project_id r))
    (or_keep (section_id i) (Task.section_id r))
    (Task.parent_task_id r)
    (or_keep (title i) (Task.title r))
    (or_keep (description i) (Task.description r))
    (or_keep (status i) (Task.status r))
    (or_keep (priority i) (Task.priority r))
    (or_keep (due_date i) (Task.due_date r))
    (or_keep (due_time i) (Task.due_time r))
    (or_keep (deadline i) (Task.deadline r))
    (Task.recurrence_rule r) (Task.recurrence_base_date r)
    (or_keep (blocked_by i) (Task.blocked_by r))
    (or_keep (sort_order i) (Task.sort_order r))
    (or_keep (completed_at i) (Task.completed_at r))
    (Task.todoist_id r) (Task.created_at r) (Task.updated_at r).
End UpdateTaskInput.

(** ** Constraints of the [tasks] table *)

(** [priority INTEGER DEFAULT 0 CHECK(priority BETWEEN 0 AND 3)] *)
Definition priority_check (t : Task.t) : bool :=
  (0 <=? Task.priority t)%Z && (Task.priority t <=? 3)%Z.

Definition option_uuid_eqb (a b : option uuid) : bool :=
  match a, b with
  | Some x, Some y => String.eqb x y
  | None, None => true
  | _, _ => false
  end.

(** A foreign key is checked when its column changes: the new value is
    NULL or the key of a stored row.  (Referential checks bypass row
    security.) *)
Definition fk_check (old new : option uuid) (keys : list uuid) : bool :=
  option_uuid_eqb old new || is_null new || col_mem new keys.

Definition tasks_fk_check (db : DB) (old new : Task.t) : bool :=
  fk_check (Task.project_id old) (Task.project_id new) (map Project.id (projects db))
  && fk_check (Task.section_id old) (Task.section_id new) (map Section_.id (sections db))
  && fk_check (Task.parent_task_id old) (Task.parent_task_id new) (map Task.id (tasks db))
  && fk_check (Task.blocked_by old) (Task.blocked_by new) (map Task.id (tasks db)).

Definition with_tasks (db : DB) (ts : list Task.t) : DB :=
  mkDB (projects db) (project_shares db) (sections db) ts.

(** ** [supabase.from('tasks').update(v).eq('id', id).select().single()]

    The statement touches the rows with that id which the caller may both
    see (the WHERE clause reads the row) and update.  The BEFORE UPDATE
    trigger stamps [updated_at]; the new row must pass the WITH CHECK
    expressions and, because it is returned, the SELECT policies; then the
    CHECK constraint and the changed foreign keys are verified.  Any
    failure aborts the statement and leaves the store as it was; so does a
    result that is not exactly one row. *)
Section UpdateById.
Variable db : DB.
Variable uid : uuid.
(** [NOW()] of the transaction *)
Variable now : timestamp.
Variable id : uuid.
Variable set : Task.t -> Task.t.

Definition update_target (t : Task.t) : bool :=
  String.eqb (Task.id t) id && tasks_select db uid t && tasks_update_using db uid t.

Definition update_new_row (t : Task.t) : Task.t := Task.touch now (set t).

Definition update_tasks_by_id : DB * Result Task.t :=
  let hit := List.filter update_target (tasks db) in
  if negb (forallb (fun t => tasks_update_check db uid (update_new_row t)
                             && tasks_select db uid (update_new_row t)) hit)
  then (db, Err insufficient_privilege)
  else if negb (forallb (fun t => priority_check (update_new_row t)) hit)
  then (db, Err check_violation)
  else if negb (forallb (fun t => tasks_fk_check db t (update_new_row t)) hit)
  then (db, Err foreign_key_violation)
  else
    match single (map update_new_row hit) with
    | Ok r =>
        (with_tasks db (map (fun t => if update_target t then update_new_row t else t)
                            (tasks db)),
         Ok r)
    | Err e => (db, Err e)
    end.
End UpdateById.

(** ** Task hooks of [hooks/useTasks.ts]: their statements, evaluated *)

(** [useUpdateTask]: [mutationFn({ id, ...input })] *)
Definition useUpdateTask (db : DB) (uid : uuid) (now : timestamp)
    (id : uuid) (input : UpdateTaskInput.t) : DB * Result Task.t :=
  update_tasks_by_id db uid now id (UpdateTaskInput.apply input).

(** [useCompleteTask]: [.update({ status: 'done', completed_at: new
    Date().toISOString() })]; [iso] is that client-side timestamp. *)
Definition complete_input (iso : timestamp) : UpdateTaskInput.t :=
  UpdateTaskInput.mk None None None None (Some done) None None None None None None
    (Some (Some iso)).

Definition useCompleteTask (db : DB) (uid : uuid) (iso now : timestamp)
    (id : uuid) : DB * Result Task.t :=
  update_tasks_by_id db uid now id (UpdateTaskInput.apply (complete_input iso)).

(** [useUncompleteTask]: [.update({ status: 'open', completed_at: null })] *)
Definition uncomplete_input : UpdateTaskInput.t :=
  UpdateTaskInput.mk None None None None (Some open) None None None None None None
    (Some None).

Definition useUncompleteTask (db : DB) (uid : uuid) (now : timestamp)
    (id : uuid) : DB * Result Task.t :=
  update_tasks_by_id db uid now id (UpdateTaskInput.apply uncomplete_input).

(** ** ON DELETE CASCADE along a self-reference

    [projects.parent_id] and [tasks.parent_task_id] both reference their own
    table with ON DELETE CASCADE.  Deleting the rows picked by [seed]
    deletes the rows that reference them, then the rows that reference
    those, and so on until a round deletes nothing.  Every round that goes
    on removes at least one row, so [S (length rows)] rounds are enough. *)
Section Cascade.
Context {A : Type}.
Variable key : A -> uuid.
Variable parent : A -> option uuid.

(** The row references one of the rows just deleted. *)
Definition child_of (dead : list A) (x : A) : bool :=
  col_mem (parent x) (map key dead).

(** Returns (deleted rows, surviving rows). *)
Fixpoint cascade (fuel : nat) (seed : A -> bool) (rows : list A) : list A * list A :=
  match fuel with
  | O => ([], rows)
  | S n =>
      match List.filter seed rows with
      | [] => ([], rows)
      | dead =>
          let '(d, alive) :=
            cascade n (child_of dead) (List.filter (fun x => negb (seed x)) rows) in
          (dead ++ d, alive)
      end
  end.

Definition delete_cascade (seed : A -> bool) (rows : list A) : list A * list A :=
  cascade (S (length rows)) seed rows.

(** What the cascade is meant to reach: the seed rows and, transitively,
    the rows that reference a reached row. *)
Inductive doomed (seed : A -> bool) (rows : list A) : A -> Prop :=
| doomed_seed x : In x rows -> seed x = true -> doomed seed rows x
| doomed_child x y :
    In x rows -> doomed seed rows y -> parent x = Some (key y) ->
    doomed seed rows x.
End Cascade.

(** ** [useDeleteTask]: [supabase.from('tasks').delete().eq('id', id)]

    Deletes the row if the caller may see and delete it; subtasks go with
    it ([parent_task_id ... ON DELETE CASCADE]); every remaining row whose
    [blocked_by] named a deleted row gets NULL there
    ([blocked_by ... ON DELETE SET NULL]), which is an UPDATE and fires the
    [updated_at] trigger.  No row matching is not an error. *)
Definition delete_task_target (db : DB) (uid : uuid) (id : uuid) (t : Task.t) : bool :=
  String.eqb (Task.id t) id && tasks_select db uid t && tasks_delete db uid t.

Definition unblock (now : timestamp) (dead : list uuid) (t : Task.t) : Task.t :=
  if col_mem (Task.blocked_by t) dead
  then Task.touch now (Task.set_blocked_by None t)
  else t.

Definition useDeleteTask (db : DB) (uid : uuid) (now : timestamp) (id : uuid)
  : DB * Result unit :=
  let '(dead, alive) :=
    delete_cascade Task.id Task.parent_task_id (delete_task_target db uid id) (tasks db) in
  (with_tasks db (map (unblock now (map Task.id dead)) alive), Ok tt).

(** ** [useDeleteProject]: [supabase.from('projects').delete().eq('id', id)]

    Deletes the project if the caller may see and delete it (only its
    owner may); subprojects cascade through [parent_id]; the sections and
    share rows of every deleted project cascade through [project_id]; tasks
    keep their rows and get NULL in [project_id] (and in [section_id] when
    the section went), both ON DELETE SET NULL. *)
Definition delete_project_target (db : DB) (uid : uuid) (id : uuid) (p : Project.t) : bool :=
  String.eqb (Project.id p) id && projects_select db uid p && projects_delete uid p.

Definition detach (now : timestamp) (dead_projects dead_sections : list uuid)
    (t : Task.t) : Task.t :=
  let t1 := if col_mem (Task.project_id t) dead_projects
            then Task.touch now (Task.set_project_id None t) else t in
  if col_mem (Task.section_id t1) dead_sections
  then Task.touch now (Task.set_section_id None t1) else t1.

Definition useDeleteProject (db : DB) (uid : uuid) (now : timestamp) (id : uuid)
  : DB * Result unit :=
  let '(dead, alive) :=
    delete_cascade Project.id Project.parent_id (delete_project_target db uid id)
                   (projects db) in
  let dead_projects := map Project.id dead in
  let gone (s : Section_.t) := mem (Section_.project_id s) dead_projects in
  let dead_sections := map Section_.id (List.filter gone (sections db)) in
  (mkDB alive
        (List.filter (fun s => negb (mem (ProjectShare.project_id s) dead_projects))
                     (project_shares db))
        (List.filter (fun s => negb (gone s)) (sections db))
        (map (detach now dead_projects dead_sections) (tasks db)),
   Ok tt).

(** Subprojects of a project, transitively, as ids: [q] is [root] or the id
    of a stored project whose parent is such an id. *)
Inductive subproject (db : DB) (root : uuid) : uuid -> Prop :=
| subproject_self : subproject db root root
| subproject_child p q :
    subproject db root q -> In p (projects db) -> Project.parent_id p = Some q ->
    subproject db root (Project.id p).

(** Subtasks of a task, transitively, as ids. *)
Inductive subtask (db : DB) (root : uuid) : uuid -> Prop :=
| subtask_self : subtask db root root
| subtask_child t q :
    subtask db root q -> In t (tasks db) -> Task.parent_task_id t = Some q ->
    subtask db root (Task.id t).

(** Modelled from the spec: the derived "blocked" state of sections 3 and
    4.4 (the repository stores [blocked_by] but never derives the state): a
    task is blocked iff its predecessor reference is set and the
    predecessor's status is not done. *)
Definition isBlocked (db : DB) (t : Task.t) : bool :=
  match Task.blocked_by t with
  | None => false
  | Some b =>
      existsb (fun p => String.eqb (Task.id p) b
                        && negb (TaskStatus_eqb (Task.status p) done))
              (tasks db)
  end.


(** ** Granting a share

    [INSERT INTO project_shares (project_id, shared_with_user_id,
    permission)] by [actor], as in the sharing snippet of the design notes:
    the new row must pass the WITH CHECK of the share policies, reference a
    stored project, and respect the primary key and
    [UNIQUE(project_id, shared_with_user_id)]. *)
Definition grantShare (db : DB) (actor : uuid) (row : ProjectShare.t)
  : DB * Result ProjectShare.t :=
  if negb (shares_insert_check db actor row)
  then (db, Err insufficient_privilege)
  else if existsb (fun s =>
                     String.eqb (ProjectShare.id s) (ProjectShare.id row)
                     || (String.eqb (ProjectShare.project_id s) (ProjectShare.project_id row)
                         && String.eqb (ProjectShare.shared_with_user_id s)
                                       (ProjectShare.shared_with_user_id row)))
                  (project_shares db)
  then (db, Err unique_violation)
  else if negb (mem (ProjectShare.project_id row) (map Project.id (projects db)))
  then (db, Err foreign_key_violation)
  else (mkDB (projects db) (project_shares db ++ [row]) (sections db) (tasks db), Ok row).

(** ** Reading one task: [useTask] *)

(** The embedded resource [project:projects(id, name, color)]. *)
Record ProjectRef := mkProjectRef {
  ref_id : uuid;
  ref_name : string;
  ref_color : string
}.

Definition join_project (db : DB) (uid : uuid) (t : Task.t) : option ProjectRef :=
  match List.find (fun p => col_eqb (Task.project_id t) (Project.id p)
                            && projects_select db uid p) (projects db) with
  | Some p => Some (mkProjectRef (Project.id p) (Project.name p) (Project.color p))
  | None => None
  end.

(** A row of the [useTask] select: every column, the embedded
    [subtasks:tasks] rows and [project:projects(id, name, color)]. *)
Module TaskDetail.
Record t := mk {
  row : Task.t;
  subtasks : list Task.t;
  project : option ProjectRef
}.
End TaskDetail.

Definition task_detail (db : DB) (uid : uuid) (t : Task.t) : TaskDetail.t :=
  TaskDetail.mk t
    (List.filter (fun c => col_eqb (Task.parent_task_id c) (Task.id t)
                           && tasks_select db uid c) (tasks db))
    (join_project db uid t).

(** [useTask(id)]: [null] for a missing or empty id; otherwise the row with
    that id among the rows the caller may see, through [.single()]. *)
Definition useTask (db : DB) (uid : uuid) (id : option string)
  : Result (option TaskDetail.t) :=
  match id with
  | Some i =>
      if negb (truthy id) then Ok None
      else
        match single (map (task_detail db uid)
                          (List.filter (fun t => tasks_select db uid t
                                                 && String.eqb (Task.id t) i)
                                       (tasks db))) with
        | Ok d => Ok (Some d)
        | Err e => Err e
        end
  | None => Ok None
  end.

(** ** Listing tasks: [useTasks] *)

Record UseTasksOptions := mkOptions {
  projectId : option string;
  sectionId : option string;
  inbox : bool;
  today : bool;
  upcoming : bool;
  noSection : bool
}.

(** A row of the [useTasks] select: every column and
    [project:projects(id, name, color)]. *)
Record FetchedTask := mkFetched {
  row : Task.t;
  project : option ProjectRef
}.

(** ISO dates compare as the strings they are. *)
Definition date_lte (c : option date) (v : date) : bool :=
  match c with
  | Some d => String.leb d v
  | None => false
  end.

Definition date_gt (c : option date) (v : date) : bool :=
  match c with
  | Some d => String.ltb v d
  | None => false
  end.

(** The chain of [if (inbox) ... else if (sectionId) ...] filters;
    [todayStr] and [twoWeeksStr] are the two dates the code derives from
    [new Date()]. *)
Definition view_filter (o : UseTasksOptions) (todayStr twoWeeksStr : date)
    (t : Task.t) : bool :=
  if inbox o then is_null (Task.project_id t)
  else if truthy (sectionId o) then
    match sectionId o with
    | Some s => col_eqb (Task.section_id t) s
    | None => false
    end
  else if truthy (projectId o) && noSection o then
    match projectId o with
    | Some p => col_eqb (Task.project_id t) p && is_null (Task.section_id t)
    | None => false
    end
  else if truthy (projectId o) then
    match projectId o with
    | Some p => col_eqb (Task.project_id t) p
    | None => false
    end
  else if today o then date_lte (Task.due_date t) todayStr
  else if upcoming o then
    date_gt (Task.due_date t) todayStr && date_lte (Task.due_date t) twoWeeksStr
  else true.

(** [.order('sort_order')], as a stable insertion sort. *)
Fixpoint insert_by_sort_order (t : Task.t) (l : list Task.t) : list Task.t :=
  match l with
  | [] => [t]
  | x :: r =>
      if (Task.sort_order t <? Task.sort_order x)%Z then t :: l
      else x :: insert_by_sort_order t r
  end.

Definition order_by_sort_order (l : list Task.t) : list Task.t :=
  fold_right insert_by_sort_order [] l.

Definition fetchTasks (db : DB) (uid : uuid) (o : UseTasksOptions)
    (todayStr twoWeeksStr : date) : list FetchedTask :=
  map (fun t => mkFetched t (join_project db uid t))
      (order_by_sort_order
         (List.filter (fun t => tasks_select db uid t
                                && TaskStatus_eqb (Task.status t) open
                                && view_filter o todayStr twoWeeksStr t)
                      (tasks db))).

(** An object of [taskMap]: [{ ...task, subtasks: [] }].  The objects are
    shared between the map, the [subtasks] arrays and [topLevelTasks], so
    an array holds references; a reference is the key under which the
    object sits in [taskMap]. *)
Record TaskNode := mkNode {
  node_task : FetchedTask;
  subtasks : list uuid
}.

Definition push_subtask (r : uuid) (n : TaskNode) : TaskNode :=
  mkNode (node_task n) (subtasks n ++ [r]).

(** First loop: [taskMap.set(task.id, { ...task, subtasks: [] })]. *)
Definition buildTaskMap (allTasks : list FetchedTask) : gmap string TaskNode :=
  fold_left (fun m f => <[Task.id (row f) := mkNode f []]> m) allTasks ∅.

(** One turn of the second loop. *)
Definition attach (st : gmap string TaskNode * list uuid) (f : FetchedTask)
  : gmap string TaskNode * list uuid :=
  let '(taskMap, topLevelTasks) := st in
  let taskWithSubtasks := Task.id (row f) in
  match Task.parent_task_id (row f) with
  | Some parent =>
      if truthy (Some parent) && bool_decide (is_Some (taskMap !! parent))
      then (alter (push_subtask taskWithSubtasks) parent taskMap, topLevelTasks)
      else if negb (truthy (Some parent))
           then (taskMap, topLevelTasks ++ [taskWithSubtasks])
           else (taskMap, topLevelTasks)
  | None => (taskMap, topLevelTasks ++ [taskWithSubtasks])
  end.

(** Lines 50-73 of [useTasks]: the heap of task objects and the returned
    array [topLevelTasks] of references into it. *)
Definition assembleTasks (allTasks : list FetchedTask)
  : gmap string TaskNode * list uuid :=
  fold_left attach allTasks (buildTaskMap allTasks, []).

Definition useTasks (db : DB) (uid : uuid) (o : UseTasksOptions)
    (todayStr twoWeeksStr : date) : gmap string TaskNode * list uuid :=
  assembleTasks (fetchTasks db uid o todayStr twoWeeksStr).

(** The objects a caller can get at from the returned array: its elements
    and, transitively, the elements of their [subtasks] arrays. *)
Inductive appears (res : gmap string TaskNode * list uuid) : uuid -> Prop :=
| appears_top r : In r (snd res) -> appears res r
| appears_sub p n r :
    appears res p -> fst res !! p = Some n -> In r (subtasks n) -> appears res r.

(** The tables as a caller's own queries show them: every table filtered
    by its SELECT policies.  A subquery inside a policy runs as the caller
    and so reads these, not the stored tables; [policies_on_visible_rows]
    below shows that the task and section policies decide the same either
    way, which is why the policies above read the stored tables. *)
Definition visible_to (db : DB) (uid : uuid) : DB :=
  mkDB (List.filter (projects_select db uid) (projects db))
       (List.filter (shares_select db uid) (project_shares db))
       (List.filter (sections_select db uid) (sections db))
       (List.filter (tasks_select db uid) (tasks db)).

(** Two stores agree on project [c]: same projects, same share rows of [c]. *)
Definition agree_on_project (db db' : DB) (c : uuid) : Prop :=
  projects db' = projects db
  /\ List.filter (fun s => String.eqb (ProjectShare.project_id s) c) (project_shares db')
     = List.filter (fun s => String.eqb (ProjectShare.project_id s) c) (project_shares db).

(** Primary keys. *)
Definition projects_pkey (db : DB) : Prop := List.NoDup (map Project.id (projects db)).
Definition tasks_pkey (db : DB) : Prop := List.NoDup (map Task.id (tasks db)).

(** Two task rows agree on every column other than the three references
    that an ON DELETE SET NULL can clear and the trigger-kept
    [updated_at]. *)
Definition same_content (t t' : Task.t) : Prop :=
  Task.id t' = Task.id t
  /\ Task.owner_id t' = Task.owner_id t
  /\ Task.parent_task_id t' = Task.parent_task_id t
  /\ Task.title t' = Task.title t
  /\ Task.description t' = Task.description t
  /\ Task.status t' = Task.status t
  /\ Task.priority t' = Task.priority t
  /\ Task.due_date t' = Task.due_date t
  /\ Task.due_time t' = Task.due_time t
  /\ Task.deadline t' = Task.deadline t
  /\ Task.recurrence_rule t' = Task.recurrence_rule t
  /\ Task.recurrence_base_date t' = Task.recurrence_base_date t
  /\ Task.sort_order t' = Task.sort_order t
  /\ Task.completed_at t' = Task.completed_at t
  /\ Task.todoist_id t' = Task.todoist_id t
  /\ Task.created_at t' = Task.created_at t.

(** What project deletion does to one task row: the row stays, under its
    id and with its content, and loses its project when that project is
    deleted. *)
Definition moved_to_inbox (db : DB) (root : uuid) (t t' : Task.t) : Prop :=
  same_content t t'
  /\ Task.blocked_by t' = Task.blocked_by t
  /\ (forall q, Task.project_id t = Some q -> subproject db root q ->
                Task.project_id t' = None).

(** ** Sample rows *)

Definition sample_task (id owner : uuid) (title : string) : Task.t :=
  Task.mk id owner None None None title None open 0%Z None None None None None None
          0%Z None None "2024-01-01T09:00:00.000Z" "2024-01-01T09:00:00.000Z".

Definition sample_project (id owner : uuid) (parent : option uuid) (name : string)
  : Project.t :=
  Project.mk id owner parent name None "#808080" 0%Z false None
             "2024-01-01T09:00:00.000Z" "2024-01-01T09:00:00.000Z".

Definition with_parent_task (p : uuid) (r : Task.t) : Task.t :=
  Task.mk (Task.id r) (Task.owner_id r) (Task.project_id r) (Task.section_id r) (Some p)
     (Task.title r) (Task.description r) (Task.status r) (Task.priority r)
     (Task.due_date r) (Task.due_time r) (Task.deadline r) (Task.recurrence_rule r)
     (Task.recurrence_base_date r) (Task.blocked_by r) (Task.sort_order r)
     (Task.completed_at r) (Task.todoist_id r) (Task.created_at r) (Task.updated_at r).

Definition with_status (st : TaskStatus) (r : Task.t) : Task.t :=
  Task.mk (Task.id r) (Task.owner_id r) (Task.project_id r) (Task.section_id r)
     (Task.parent_task_id r)
     (Task.title r) (Task.description r) st (Task.priority r)
     (Task.due_date r) (Task.due_time r) (Task.deadline r) (Task.recurrence_rule r)
     (Task.recurrence_base_date r) (Task.blocked_by r) (Task.sort_order r)
     (Task.completed_at r) (Task.todoist_id r) (Task.created_at r) (Task.updated_at r).


(** The completion invariant on one row: [completed_at] is non-null
    exactly when [status] is done. *)
Definition consistent (t : Task.t) : bool :=
  Bool.eqb (negb (is_null (Task.completed_at t))) (TaskStatus_eqb (Task.status t) done).

Definition all_consistent (db : DB) : Prop :=
  Forall (fun t => consistent t = true) (tasks db).








(** Bob's private inbox task. *)
Definition db_hidden : DB :=
  mkDB [] [] [] [sample_task "H" "bob" "secret"].

(** Alice owns project P, its child C and an unrelated project Q; C has a
    section with a task in it, P has a task, and one task is in the inbox. *)
Definition project_P : Project.t := sample_project "P" "alice" None "parent".
Definition project_C : Project.t := sample_project "C" "alice" (Some "P") "child".
Definition project_Q : Project.t := sample_project "Q" "alice" None "other".

Definition db_family : DB :=
  mkDB [project_P; project_C; project_Q]
       []
       [Section_.mk "S" "C" "todo" 0%Z None "2024-01-01T09:00:00.000Z"]
       [Task.set_section_id (Some "S")
          (Task.set_project_id (Some "C") (sample_task "t1" "alice" "in child"));
        Task.set_project_id (Some "P") (sample_task "t2" "alice" "in parent");
        sample_task "t3" "alice" "in inbox"].

(** The parent "par" is done, its subtask "sub" is open. *)
Definition db_done_parent : DB :=
  mkDB [] [] []
       [with_status done (sample_task "par" "alice" "parent");
        with_parent_task "par" (sample_task "sub" "alice" "child")].

(** [useTasks()] with no option set. *)
Definition no_options : UseTasksOptions := mkOptions None None false false false false.

(** Closes a primary-key goal on a concrete table. *)
Ltac solve_pkey :=
  repeat (constructor; [simpl; intuition discriminate|]); constructor.

(** ** Further policies and hooks *)


(** [useInboxCount]: the exact count of the open tasks without a project
    that the caller sees. *)
Definition useInboxCount (db : DB) (uid : uuid) : nat :=
  length (List.filter (fun t => tasks_select db uid t
                                && TaskStatus_eqb (Task.status t) open
                                && is_null (Task.project_id t)) (tasks db)).

(** [useTodayCount]: the exact count of the open tasks due on or before
    [todayStr] that the caller sees. *)
Definition useTodayCount (db : DB) (uid : uuid) (todayStr : date) : nat :=
  length (List.filter (fun t => tasks_select db uid t
                                && TaskStatus_eqb (Task.status t) open
                                && date_lte (Task.due_date t) todayStr) (tasks db)).

(** The options the views pass: [useTasks({ inbox: true })] and
    [useTasks({ today: true })]. *)
Definition inbox_options : UseTasksOptions := mkOptions None None true false false false.
Definition today_options : UseTasksOptions := mkOptions None None false true false false.

(** The second loop's test for "this row goes under the object with key [k]". *)
Definition attaches_to (k : string) (f : FetchedTask) : bool :=
  match Task.parent_task_id (row f) with
  | Some p => String.eqb p k && truthy (Some p)
  | None => false
  end.

(** *** [useCreateTask] *)

(** What a hook's promise rejects with: the error of the supabase call or
    [new Error('Not authenticated')]. *)
Inductive HookError :=
| NotAuthenticated
| Postgrest (e : PostgrestError).

Inductive Settled (A : Type) :=
| Fulfilled (a : A)
| Rejected (e : HookError).
Arguments Fulfilled {A} a.
Arguments Rejected {A} e.

(** [CreateTaskInput] of [types/index.ts].  An absent key and a [null]
    both leave a column without default at NULL; an absent [priority]
    takes the column default. *)
Module CreateTaskInput.
Record t := mk {
  title : string;
  project_id : option uuid;
  section_id : option uuid;
  parent_task_id : option uuid;
  description : option string;
  priority : option Z;
  due_date : option date;
  due_time : option string;
  deadline : option date
}.
End CreateTaskInput.

(** The row [INSERT INTO tasks] builds from [{ ...input, owner_id }]:
    [id] is the [gen_random_uuid()] drawn for it, [status], [priority] and
    [sort_order] take their defaults when absent, both timestamps are
    [NOW()]. *)
Definition new_task_row (new_id owner : uuid) (now : timestamp)
    (i : CreateTaskInput.t) : Task.t :=
  Task.mk new_id owner
    (CreateTaskInput.project_id i) (CreateTaskInput.section_id i)
    (CreateTaskInput.parent_task_id i)
    (CreateTaskInput.title i) (CreateTaskInput.description i)
    open
    match CreateTaskInput.priority i with Some p => p | None => 0%Z end
    (CreateTaskInput.due_date i) (CreateTaskInput.due_time i) (CreateTaskInput.deadline i)
    None None None 0%Z None None now now.

(** [useCreateTask]: [user] is what [supabase.auth.getUser()] yields.  The
    new row must pass the INSERT checks and, being returned, the SELECT
    policies; then the CHECK constraint, the primary key and the foreign
    keys. *)
Definition useCreateTask (db : DB) (user : option uuid) (new_id : uuid)
    (now : timestamp) (input : CreateTaskInput.t) : DB * Settled Task.t :=
  match user with
  | None => (db, Rejected NotAuthenticated)
  | Some uid =>
      let r := new_task_row new_id uid now input in
      if negb (tasks_insert_check db uid r && tasks_select db uid r)
      then (db, Rejected (Postgrest insufficient_privilege))
      else if negb (priority_check r)
      then (db, Rejected (Postgrest check_violation))
      else if mem new_id (map Task.id (tasks db))
      then (db, Rejected (Postgrest unique_violation))
      else if negb (fk_check None (Task.project_id r) (map Project.id (projects db))
                    && fk_check None (Task.section_id r) (map Section_.id (sections db))
                    && fk_check None (Task.parent_task_id r)
                         (new_id :: map Task.id (tasks db)))
      then (db, Rejected (Postgrest foreign_key_violation))
      else (with_tasks db (tasks db ++ [r]), Fulfilled r)
  end.

(** *** Section hooks of [hooks/useSections.ts] *)










(** *** [buildProjectTree] of [hooks/useProjects.ts] *)

(** An object of [map]: [{ ...p, children: [] }]; as for the task objects,
    a [children] array holds references, that is keys of [map]. *)
Record ProjectNode := mkProjectNode {
  node_project : Project.t;
  children : list uuid
}.

Definition push_child (r : uuid) (n : ProjectNode) : ProjectNode :=
  mkProjectNode (node_project n) (children n ++ [r]).

(** First pass. *)
Definition buildProjectMap (ps : list Project.t) : gmap string ProjectNode :=
  fold_left (fun m p => <[Project.id p := mkProjectNode p []]> m) ps ∅.

(** One turn of the second pass. *)
Definition attach_project (st : gmap string ProjectNode * list uuid) (p : Project.t)
  : gmap string ProjectNode * list uuid :=
  let '(map, roots) := st in
  let project := Project.id p in
  match Project.parent_id p with
  | Some parent =>
      if truthy (Some parent) && bool_decide (is_Some (map !! parent))
      then (alter (push_child project) parent map, roots)
      else (map, roots ++ [project])
  | None => (map, roots ++ [project])
  end.

Definition buildProjectTree (ps : list Project.t)
  : gmap string ProjectNode * list uuid :=
  fold_left attach_project ps (buildProjectMap ps, []).

(** The second pass's test "this project goes under a listed parent". *)
Definition has_listed_parent (ps : list Project.t) (p : Project.t) : bool :=
  truthy (Project.parent_id p) && col_mem (Project.parent_id p) (map Project.id ps).

(** The projects a caller can get at from the returned roots. *)
Inductive shown (res : gmap string ProjectNode * list uuid) : uuid -> Prop :=
| shown_root r : In r (snd res) -> shown res r
| shown_child p n r :
    shown res p -> fst res !! p = Some n -> In r (children n) -> shown res r.

(** A listed project whose chain of listed parents ends: it has no listed
    parent, or its parent is a listed project of that kind. *)
Inductive grounded (ps : list Project.t) : Project.t -> Prop :=
| grounded_root p : In p ps -> has_listed_parent ps p = false -> grounded ps p
| grounded_child p q :
    In p ps -> In q ps -> Project.parent_id p = Some (Project.id q) ->
    grounded ps q -> grounded ps p.

(** The second pass's test "this project goes under the object with key [k]". *)
Definition goes_under (k : string) (p : Project.t) : bool :=
  match Project.parent_id p with
  | Some par => String.eqb par k && truthy (Some par)
  | None => false
  end.

(** ** Further sample stores *)






(** A fetched parent with its fetched subtask. *)
Definition fetched_parent : FetchedTask :=
  mkFetched (sample_task "par" "alice" "parent") None.

Definition fetched_family : list FetchedTask :=
  [fetched_parent;
   mkFetched (with_parent_task "par" (sample_task "sub" "alice" "child")) None].




(** * The requests of the app

    The definitions above say what each statement computes on the rows.
    The hooks send their statements through PostgREST as the signed-in
    user, and two things happen before any row is read.  PostgREST
    resolves every embedded resource of the select against the foreign
    keys of the schema and refuses a request whose embedding is ambiguous.
    Postgres rewrites the statement with the row-level-security policies
    of its table, and those of every table a policy reads in a subquery,
    and refuses a statement whose policies lead back to a table that is
    still being expanded.  Only then is the statement evaluated. *)

Inductive Relation := projects_table | project_shares_table | sections_table | tasks_table.

Definition Relation_eqb (a b : Relation) : bool :=
  match a, b with
  | projects_table, projects_table
  | project_shares_table, project_shares_table
  | sections_table, sections_table
  | tasks_table, tasks_table => true
  | _, _ => false
  end.

Inductive Command := SELECT | INSERT | UPDATE | DELETE.

Definition Command_eqb (a b : Command) : bool :=
  match a, b with
  | SELECT, SELECT | INSERT, INSERT | UPDATE, UPDATE | DELETE, DELETE => true
  | _, _ => false
  end.

(** ** Embedded resources *)

Record ForeignKey := mkForeignKey {
  fk_table : Relation;
  fk_column : string;
  fk_references : Relation
}.

(** The REFERENCES clauses between the four tables (those to [auth.users]
    leave the exposed schema). *)
Definition foreign_keys : list ForeignKey :=
  [mkForeignKey projects_table "parent_id" projects_table;
   mkForeignKey project_shares_table "project_id" projects_table;
   mkForeignKey sections_table "project_id" projects_table;
   mkForeignKey tasks_table "project_id" projects_table;
   mkForeignKey tasks_table "section_id" sections_table;
   mkForeignKey tasks_table "parent_task_id" tasks_table;
   mkForeignKey tasks_table "blocked_by" tasks_table].

Inductive Cardinality := many_to_one | one_to_many.

(** The relationships PostgREST knows for embedding [target], named by its
    table only, in a select from [origin]: a many-to-one through every
    foreign key of [origin] that references [target], a one-to-many through
    every foreign key of [target] that references [origin].  (No table has
    a primary key made of two foreign keys, so there is no junction table
    and no many-to-many.) *)
Definition relationships (origin target : Relation) : list (Cardinality * ForeignKey) :=
  map (pair many_to_one)
      (List.filter (fun k => Relation_eqb (fk_table k) origin
                             && Relation_eqb (fk_references k) target) foreign_keys)
  ++ map (pair one_to_many)
         (List.filter (fun k => Relation_eqb (fk_table k) target
                                && Relation_eqb (fk_references k) origin) foreign_keys).

(** An embedding without a hint needs exactly one relationship. *)
Definition resolve_embed (origin target : Relation) : Result (Cardinality * ForeignKey) :=
  match relationships origin target with
  | [r] => Ok r
  | [] => Err PGRST200
  | _ => Err PGRST201
  end.

(** ** Policy expansion *)

(** A CREATE POLICY statement, as far as the rewriter looks at it: its
    table, its command ([None] for FOR ALL) and the tables its USING and
    WITH CHECK expressions select from, nested subqueries included. *)
Record Policy := mkPolicy {
  policy_name : string;
  policy_table : Relation;
  policy_command : option Command;
  policy_reads : list Relation
}.

(** The policies of the migration on the four tables, in its order. *)
Definition policies : list Policy :=
  [mkPolicy "Users can view own projects" projects_table (Some SELECT) [];
   mkPolicy "Users can view shared projects" projects_table (Some SELECT)
            [project_shares_table];
   mkPolicy "Users can insert own projects" projects_table (Some INSERT) [];
   mkPolicy "Users can update own projects" projects_table (Some UPDATE) [];
   mkPolicy "Users can update shared projects with edit+" projects_table (Some UPDATE)
            [project_shares_table];
   mkPolicy "Users can delete own projects" projects_table (Some DELETE) [];
   mkPolicy "Owners can manage shares" project_shares_table None [projects_table];
   mkPolicy "Admins can manage shares" project_shares_table None [project_shares_table];
   mkPolicy "Users can view their own shares" project_shares_table (Some SELECT) [];
   mkPolicy "Users can view sections of accessible projects" sections_table (Some SELECT)
            [projects_table; project_shares_table];
   mkPolicy "Users can modify sections of editable projects" sections_table None
            [projects_table; project_shares_table];
   mkPolicy "Users can view own inbox tasks" tasks_table (Some SELECT) [];
   mkPolicy "Users can insert own inbox tasks" tasks_table (Some INSERT) [];
   mkPolicy "Users can update own inbox tasks" tasks_table (Some UPDATE) [];
   mkPolicy "Users can delete own inbox tasks" tasks_table (Some DELETE) [];
   mkPolicy "Users can view tasks in accessible projects" tasks_table (Some SELECT)
            [projects_table; project_shares_table];
   mkPolicy "Users can modify own tasks in projects" tasks_table None
            [projects_table; project_shares_table];
   mkPolicy "Users can modify tasks in editable shared projects" tasks_table (Some UPDATE)
            [projects_table; project_shares_table];
   mkPolicy "Users can insert tasks in projects" tasks_table (Some INSERT)
            [projects_table; project_shares_table]].

(** The policies the rewriter adds to a statement of command [c] on [r]:
    the FOR ALL policies of [r], those of [c], and the SELECT policies as
    well, because every statement the hooks send filters on a column or
    returns the row. *)
Definition applicable (c : Command) (r : Relation) (p : Policy) : bool :=
  Relation_eqb (policy_table p) r
  && match policy_command p with
     | None => true
     | Some c' => Command_eqb c' c || Command_eqb c' SELECT
     end.

Definition sublinks (c : Command) (r : Relation) : list Relation :=
  flat_map policy_reads (List.filter (applicable c r) policies).

(** The rewriter's walk.  When the policies added for [r] hold subqueries,
    [r] must not be among the tables whose policies are being expanded
    ([active]); it joins them while the subqueries are expanded, each as a
    SELECT.  A walk that is not refused visits no table twice on a path,
    so it is at most four tables deep and the fuel is never used up. *)
Fixpoint expand (fuel : nat) (active : list Relation) (c : Command) (r : Relation)
  : bool :=
  match fuel with
  | O => false
  | S n =>
      match sublinks c r with
      | [] => true
      | reads =>
          negb (existsb (Relation_eqb r) active)
          && forallb (expand n (r :: active) SELECT) reads
      end
  end.

Definition policies_expand (c : Command) (r : Relation) : bool := expand 5 [] c r.

(** A statement of command [c] on [r]: refused with 42P17 when its
    policies do not expand, evaluated otherwise.  A refused statement
    changes nothing. *)
Definition statement {A} (c : Command) (r : Relation) (db : DB) (run : DB * Result A)
  : DB * Result A :=
  if policies_expand c r then run else (db, Err invalid_object_definition).

(** The same for a query, which has no store to return. *)
Definition query {A} (rs : list Relation) (run : Result A) : Result A :=
  if forallb (policies_expand SELECT) rs then run else Err invalid_object_definition.



(** ** The hooks as requests *)

Module Request.

(** [useTasks]: the select embeds [project:projects(id, name, color)], so
    the query reads [tasks] and [projects]. *)
Definition useTasks (db : DB) (uid : uuid) (o : UseTasksOptions)
    (todayStr twoWeeksStr : date) : Result (gmap string TaskNode * list uuid) :=
  match resolve_embed tasks_table projects_table with
  | Err e => Err e
  | Ok _ =>
      query [tasks_table; projects_table] (Ok (useTasks db uid o todayStr twoWeeksStr))
  end.

(** [useTask]: no request for a missing or empty id; otherwise the select
    embeds [subtasks:tasks] (every column) and
    [project:projects(id, name, color)]. *)
Definition useTask (db : DB) (uid : uuid) (id : option string)
  : Result (option TaskDetail.t) :=
  if negb (truthy id) then Ok None
  else
    match resolve_embed tasks_table tasks_table,
          resolve_embed tasks_table projects_table with
    | Err e, _ => Err e
    | Ok _, Err e => Err e
    | Ok _, Ok _ => query [tasks_table; projects_table] (useTask db uid id)
    end.

(** [useCreateTask]: without a user the hook throws before any request. *)
Definition useCreateTask (db : DB) (user : option uuid) (new_id : uuid)
    (now : timestamp) (input : CreateTaskInput.t) : DB * Settled Task.t :=
  match user with
  | None => (db, Rejected NotAuthenticated)
  | Some _ =>
      if policies_expand INSERT tasks_table
      then useCreateTask db user new_id now input
      else (db, Rejected (Postgrest invalid_object_definition))
  end.

(** [useUpdateTask]: [.update(input)] sends every key its argument
    carries, whatever its declared type ([MaestroDrawer] hands it the
    payload of a tool call); [set] is what the SET clause built from those
    keys does to a row.  For an argument of the declared type it is
    [UpdateTaskInput.apply input]. *)
Definition useUpdateTask (db : DB) (uid : uuid) (now : timestamp)
    (id : uuid) (set : Task.t -> Task.t) : DB * Result Task.t :=
  statement UPDATE tasks_table db (update_tasks_by_id db uid now id set).

Definition useCompleteTask (db : DB) (uid : uuid) (iso now : timestamp)
    (id : uuid) : DB * Result Task.t :=
  statement UPDATE tasks_table db (useCompleteTask db uid iso now id).

Definition useUncompleteTask (db : DB) (uid : uuid) (now : timestamp)
    (id : uuid) : DB * Result Task.t :=
  statement UPDATE tasks_table db (useUncompleteTask db uid now id).

Definition useDeleteTask (db : DB) (uid : uuid) (now : timestamp) (id : uuid)
  : DB * Result unit :=
  statement DELETE tasks_table db (useDeleteTask db uid now id).

Definition useDeleteProject (db : DB) (uid : uuid) (now : timestamp) (id : uuid)
  : DB * Result unit :=
  statement DELETE projects_table db (useDeleteProject db uid now id).



End Request.

(** * Properties *)

(** ** Boolean plumbing *)

Lemma mem_In (v : uuid) (l : list uuid) : mem v l = true <-> In v l.
Proof.
  unfold mem. rewrite existsb_exists. split.
  - intros (x & Hx & E). apply String.eqb_eq in E. now subst.
  - intros H. exists v. split; [assumption | apply String.eqb_refl].
Qed.

Lemma col_eqb_eq (c : option uuid) (v : uuid) : col_eqb c v = true <-> c = Some v.
Proof.
  destruct c as [x|]; simpl.
  - rewrite String.eqb_eq. split; congruence.
  - split; discriminate.
Qed.

Lemma col_mem_In (c : option uuid) (l : list uuid) :
  col_mem c l = true <-> exists v, c = Some v /\ In v l.
Proof.
  destruct c as [x|]; simpl.
  - rewrite mem_In. split; [eauto | intros (v & E & H); congruence].
  - split; [discriminate | intros (v & E & _); discriminate].
Qed.

Lemma is_null_true {A} (c : option A) : is_null c = true <-> c = None.
Proof. destruct c; simpl; split; congruence. Qed.

Lemma existsb_pointwise {A} (f g : A -> bool) (l : list A) :
  (forall x, f x = g x) -> existsb f l = existsb g l.
Proof.
  intros H. induction l as [|a l IH]; simpl; [reflexivity|]. now rewrite H, IH.
Qed.

(** ** The permission resolver against the policies *)

Lemma share_exists_find (db : DB) (u pid : uuid) :
  share_exists db u pid = true <->
  List.find (fun s => String.eqb (ProjectShare.project_id s) pid
                      && String.eqb (ProjectShare.shared_with_user_id s) u)
            (project_shares db) <> None.
Proof.
  unfold share_exists. induction (project_shares db) as [|s l IH]; simpl.
  - split; [discriminate | congruence].
  - destruct (_ && _); simpl; [split; [discriminate | reflexivity] | exact IH].
Qed.

Lemma resolve_not_none (db : DB) (u : uuid) (p : Project.t) :
  resolve db u p <> none <-> owned_or_shared db u p = true.
Proof.
  unfold resolve, owned_or_shared. rewrite (String.eqb_sym u).
  destruct (String.eqb (Project.owner_id p) u); simpl.
  - split; [reflexivity | discriminate].
  - rewrite share_exists_find.
    destruct (List.find _ _); split; intros H; congruence.
Qed.

Lemma project_exists_spec (db : DB) (fk : option uuid) (cond : Project.t -> bool) :
  project_exists db fk cond = true <->
  exists p, In p (projects db) /\ fk = Some (Project.id p) /\ cond p = true.
Proof.
  unfold project_exists. rewrite existsb_exists. split.
  - intros (p & Hin & H). apply andb_prop in H as [H1 H2].
    apply col_eqb_eq in H1. eauto.
  - intros (p & Hin & H1 & H2). exists p. split; [assumption|].
    apply andb_true_intro. split; [now apply col_eqb_eq | assumption].
Qed.

(** The SELECT policies of [tasks], as expressions: they hold of a row
    exactly when the row is in the inbox (no project) and the user owns
    it, or the row has a project on which the user's resolved permission
    is not none. *)
Lemma canRead_iff_inbox_owner_or_resolved (db : DB) (u : uuid) (t : Task.t) :
  canRead db u t = true <->
  (Task.project_id t = None /\ Task.owner_id t = u)
  \/ (exists p, In p (projects db)
                /\ Task.project_id t = Some (Project.id p)
                /\ resolve db u p <> none).
Proof.
  unfold canRead, tasks_select, tasks_view_own_inbox, tasks_view_accessible,
    tasks_modify_own_in_projects.
  split.
  - intros H. apply orb_prop in H as [H|H]; [apply orb_prop in H as [H|H]|].
    + apply andb_prop in H as [H1 H2]. left.
      apply String.eqb_eq in H1. apply is_null_true in H2. now split.
    + apply andb_prop in H as [_ H]. right.
      apply project_exists_spec in H as (p & Hin & E & Hc).
      exists p. repeat split; [assumption .. | now apply resolve_not_none].
    + apply andb_prop in H as [_ H]. right.
      apply project_exists_spec in H as (p & Hin & E & Hc).
      exists p. repeat split; [assumption .. | now apply resolve_not_none].
  - intros [[Hn Ho] | (p & Hin & E & Hr)].
    + rewrite Hn. subst u. rewrite String.eqb_refl. reflexivity.
    + apply resolve_not_none in Hr.
      assert (Hex : project_exists db (Task.project_id t) (owned_or_shared db u) = true)
        by (apply project_exists_spec; eauto).
      rewrite Hex, E. simpl. apply orb_true_iff. left. apply orb_true_r.
Qed.

(** ** Policies whose subqueries run under row-level security *)

Lemma existsb_filter_implied {A} (c f : A -> bool) (l : list A) :
  (forall x, c x = true -> f x = true) ->
  existsb c (List.filter f l) = existsb c l.
Proof.
  intros H. induction l as [|a l IH]; simpl; [reflexivity|].
  destruct (f a) eqn:Ef; simpl; rewrite IH; [reflexivity|].
  destruct (c a) eqn:Ec; [|reflexivity].
  rewrite (H a Ec) in Ef. discriminate.
Qed.

Lemma share_exists_visible (db : DB) (u pid : uuid) :
  share_exists (visible_to db u) u pid = share_exists db u pid.
Proof.
  unfold share_exists. cbn [visible_to project_shares].
  apply existsb_filter_implied. intros s H. apply andb_prop in H as [_ H].
  unfold shares_select, shares_view_own. rewrite H. apply orb_true_r.
Qed.

Lemma edit_share_exists_visible (db : DB) (u pid : uuid) :
  edit_share_exists (visible_to db u) u pid = edit_share_exists db u pid.
Proof.
  unfold edit_share_exists. cbn [visible_to project_shares].
  apply existsb_filter_implied. intros s H.
  apply andb_prop in H as [H _]. apply andb_prop in H as [_ H].
  unfold shares_select, shares_view_own. rewrite H. apply orb_true_r.
Qed.

Lemma edit_share_exists_share (db : DB) (u pid : uuid) :
  edit_share_exists db u pid = true -> share_exists db u pid = true.
Proof.
  unfold edit_share_exists, share_exists. rewrite !existsb_exists.
  intros (s & Hin & H). exists s. split; [assumption|].
  now apply andb_prop in H as [H _].
Qed.

Lemma project_exists_visible (db : DB) (u : uuid) (fk : option uuid)
    (cond cond' : Project.t -> bool) :
  (forall p, cond' p = cond p) ->
  (forall p, cond p = true -> projects_select db u p = true) ->
  project_exists (visible_to db u) fk cond' = project_exists db fk cond.
Proof.
  intros Hc Hs. unfold project_exists. cbn [visible_to projects].
  rewrite (existsb_pointwise _ (fun p => col_eqb fk (Project.id p) && cond p))
    by (intros p; now rewrite Hc).
  apply existsb_filter_implied. intros p H. apply andb_prop in H as [_ H]. now apply Hs.
Qed.

Lemma policies_on_visible_rows (db : DB) (u : uuid) :
  (forall t, tasks_select (visible_to db u) u t = tasks_select db u t
             /\ tasks_insert_check (visible_to db u) u t = tasks_insert_check db u t
             /\ tasks_update_using (visible_to db u) u t = tasks_update_using db u t
             /\ tasks_update_check (visible_to db u) u t = tasks_update_check db u t
             /\ tasks_delete (visible_to db u) u t = tasks_delete db u t)
  /\ (forall s, sections_select (visible_to db u) u s = sections_select db u s
                /\ sections_write (visible_to db u) u s = sections_write db u s).
Proof.
  assert (H1 : forall fk, project_exists (visible_to db u) fk (owned_or_shared (visible_to db u) u)
                          = project_exists db fk (owned_or_shared db u)).
  { intros fk. apply project_exists_visible.
    - intros p. unfold owned_or_shared. now rewrite share_exists_visible.
    - intros p H. exact H. }
  assert (H2 : forall fk, project_exists (visible_to db u) fk
                            (owned_or_edit_shared (visible_to db u) u)
                          = project_exists db fk (owned_or_edit_shared db u)).
  { intros fk. apply project_exists_visible.
    - intros p. unfold owned_or_edit_shared. now rewrite edit_share_exists_visible.
    - intros p H. unfold owned_or_edit_shared in H. unfold projects_select,
        projects_view_own, projects_view_shared.
      apply orb_prop in H as [H|H]; [now rewrite H|].
      rewrite (edit_share_exists_share db u _ H). apply orb_true_r. }
  assert (H3 : forall fk, project_exists (visible_to db u) fk
                            (fun p => edit_share_exists (visible_to db u) u (Project.id p))
                          = project_exists db fk
                              (fun p => edit_share_exists db u (Project.id p))).
  { intros fk. apply project_exists_visible.
    - intros p. now rewrite edit_share_exists_visible.
    - intros p H. unfold projects_select, projects_view_shared.
      rewrite (edit_share_exists_share db u _ H). apply orb_true_r. }
  split.
  - intros t.
    unfold tasks_select, tasks_insert_check, tasks_update_using, tasks_update_check,
      tasks_delete, tasks_view_accessible, tasks_modify_own_in_projects,
      tasks_modify_editable_shared, tasks_insert_in_projects.
    rewrite H1, H2, H3. repeat split; reflexivity.
  - intros s.
    unfold sections_select, sections_write, sections_view_accessible,
      sections_modify_editable.
    rewrite H1, H2. split; reflexivity.
Qed.

(** ** Existence masking in [useTask] *)




(** ** Shares are per project *)

Lemma existsb_filter_split {A} (f g : A -> bool) (l : list A) :
  existsb (fun x => f x && g x) l = existsb g (List.filter f l).
Proof.
  induction l as [|a l IH]; simpl; [reflexivity|].
  destruct (f a); simpl; rewrite IH; reflexivity.
Qed.

Lemma share_exists_agree (db db' : DB) (u c : uuid) :
  agree_on_project db db' c -> share_exists db' u c = share_exists db u c.
Proof.
  intros [_ H]. unfold share_exists.
  rewrite !(existsb_filter_split
              (fun s => String.eqb (ProjectShare.project_id s) c)
              (fun s => String.eqb (ProjectShare.shared_with_user_id s) u)).
  now rewrite H.
Qed.

Lemma edit_share_exists_agree (db db' : DB) (u c : uuid) :
  agree_on_project db db' c -> edit_share_exists db' u c = edit_share_exists db u c.
Proof.
  intros [_ H]. unfold edit_share_exists.
  assert (E : forall l,
             existsb (fun s => String.eqb (ProjectShare.project_id s) c
                               && String.eqb (ProjectShare.shared_with_user_id s) u
                               && permission_in_edit_admin (ProjectShare.permission s)) l
             = existsb (fun s => String.eqb (ProjectShare.shared_with_user_id s) u
                                 && permission_in_edit_admin (ProjectShare.permission s))
                       (List.filter (fun s => String.eqb (ProjectShare.project_id s) c) l)).
  { intros l. rewrite <- existsb_filter_split. apply existsb_pointwise.
    intros s. now rewrite andb_assoc. }
  now rewrite !E, H.
Qed.

Lemma project_exists_agree (db db' : DB) (c : uuid) (cond cond' : Project.t -> bool) :
  projects db' = projects db ->
  (forall p, Project.id p = c -> cond' p = cond p) ->
  project_exists db' (Some c) cond' = project_exists db (Some c) cond.
Proof.
  intros Hp Hc. unfold project_exists. rewrite Hp. apply existsb_pointwise.
  intros p. simpl. destruct (String.eqb c (Project.id p)) eqn:E; [|reflexivity].
  apply String.eqb_eq in E. simpl. now apply Hc.
Qed.

Lemma task_access_agree (db db' : DB) (u c : uuid) (t : Task.t) :
  agree_on_project db db' c ->
  Task.project_id t = Some c ->
  canRead db' u t = canRead db u t
  /\ tasks_insert_check db' u t = tasks_insert_check db u t
  /\ tasks_update_using db' u t = tasks_update_using db u t
  /\ tasks_update_check db' u t = tasks_update_check db u t
  /\ tasks_delete db' u t = tasks_delete db u t.
Proof.
  intros Hag Ht.
  assert (H1 : project_exists db' (Some c) (owned_or_shared db' u)
               = project_exists db (Some c) (owned_or_shared db u)).
  { apply project_exists_agree; [apply Hag|]. intros p <-. unfold owned_or_shared.
    now rewrite (share_exists_agree db db'). }
  assert (H2 : project_exists db' (Some c) (owned_or_edit_shared db' u)
               = project_exists db (Some c) (owned_or_edit_shared db u)).
  { apply project_exists_agree; [apply Hag|]. intros p <-. unfold owned_or_edit_shared.
    now rewrite (edit_share_exists_agree db db'). }
  assert (H3 : project_exists db' (Some c) (fun p => edit_share_exists db' u (Project.id p))
               = project_exists db (Some c) (fun p => edit_share_exists db u (Project.id p))).
  { apply project_exists_agree; [apply Hag|]. intros p <-.
    now rewrite (edit_share_exists_agree db db'). }
  unfold canRead, tasks_select, tasks_insert_check, tasks_update_using,
    tasks_update_check, tasks_delete, tasks_view_accessible,
    tasks_modify_own_in_projects, tasks_modify_editable_shared,
    tasks_insert_in_projects.
  rewrite Ht, H1, H2, H3. repeat split; reflexivity.
Qed.

Lemma section_access_agree (db db' : DB) (u : uuid) (s : Section_.t) :
  agree_on_project db db' (Section_.project_id s) ->
  sections_select db' u s = sections_select db u s
  /\ sections_write db' u s = sections_write db u s.
Proof.
  intros Hag.
  unfold sections_select, sections_write, sections_view_accessible,
    sections_modify_editable.
  rewrite (project_exists_agree db db' _ (owned_or_shared db u) (owned_or_shared db' u)).
  2: apply Hag.
  2: { intros p Hp. unfold owned_or_shared.
       rewrite (share_exists_agree db db' u (Project.id p)); [reflexivity|].
       now rewrite Hp. }
  rewrite (project_exists_agree db db' _ (owned_or_edit_shared db u)
             (owned_or_edit_shared db' u)).
  2: apply Hag.
  2: { intros p Hp. unfold owned_or_edit_shared.
       rewrite (edit_share_exists_agree db db' u (Project.id p)); [reflexivity|].
       now rewrite Hp. }
  split; reflexivity.
Qed.

Lemma grantShare_agree (db : DB) (actor : uuid) (row : ProjectShare.t) (c : uuid) :
  ProjectShare.project_id row <> c ->
  agree_on_project db (fst (grantShare db actor row)) c.
Proof.
  intros Hne. unfold grantShare.
  repeat match goal with |- context [if ?b then _ else _] => destruct b end;
    split; try reflexivity.
  cbn [fst project_shares]. rewrite List.filter_app. cbn [List.filter].
  apply String.eqb_neq in Hne. rewrite Hne. apply app_nil_r.
Qed.

(** C5. Granting B an edit share on a project P changes nothing in what B
    may read or write among the tasks and sections of a child project C
    of P. *)
Theorem share_on_parent_leaves_child_access (db : DB) (actor B : uuid)
    (share_id : uuid) (created : timestamp) (P C : Project.t) :
  Project.parent_id C = Some (Project.id P) ->
  Project.id C <> Project.id P ->
  let db' := fst (grantShare db actor
                    (ProjectShare.mk share_id (Project.id P) B edit created)) in
  (forall t, Task.project_id t = Some (Project.id C) ->
             canRead db' B t = canRead db B t
             /\ tasks_insert_check db' B t = tasks_insert_check db B t
             /\ tasks_update_using db' B t = tasks_update_using db B t
             /\ tasks_update_check db' B t = tasks_update_check db B t
             /\ tasks_delete db' B t = tasks_delete db B t)
  /\ (forall s, Section_.project_id s = Project.id C ->
                sections_select db' B s = sections_select db B s
                /\ sections_write db' B s = sections_write db B s).
Proof.
  intros _ Hne db'.
  assert (Hag : agree_on_project db db' (Project.id C)).
  { apply grantShare_agree. simpl. congruence. }
  split.
  - intros t Ht. now apply task_access_agree with (c := Project.id C).
  - intros s Hs. apply section_access_agree. now rewrite Hs.
Qed.

(** ** The cascade reaches exactly the doomed rows *)

Section CascadeFacts.
Context {A : Type}.
Variable key : A -> uuid.
Variable parent : A -> option uuid.

Lemma filter_length_le (f : A -> bool) (l : list A) :
  length (List.filter f l) <= length l.
Proof. induction l as [|a l IH]; simpl; [lia|]. destruct (f a); simpl; lia. Qed.

Lemma filter_negb_shrinks (f : A -> bool) (l : list A) :
  List.filter f l <> [] -> length (List.filter (fun x => negb (f x)) l) < length l.
Proof.
  induction l as [|a l IH]; simpl; [congruence|].
  destruct (f a); simpl; intros H.
  - pose proof (filter_length_le (fun x => negb (f x)) l). lia.
  - apply IH in H. lia.
Qed.

Lemma child_of_spec (dead : list A) (x : A) :
  child_of key parent dead x = true <->
  exists d, In d dead /\ parent x = Some (key d).
Proof.
  unfold child_of. rewrite col_mem_In. split.
  - intros (v & E & Hin). apply in_map_iff in Hin as (d & <- & Hd). eauto.
  - intros (d & Hd & E). exists (key d). split; [assumption|]. now apply in_map.
Qed.

Lemma no_seed_no_doomed (seed : A -> bool) (rows : list A) (x : A) :
  List.filter seed rows = [] -> ~ doomed key parent seed rows x.
Proof.
  intros E H. induction H as [x Hin Hs | x y Hin Hy IH Hp]; [|assumption].
  assert (Hx : In x (List.filter seed rows)) by (apply filter_In; now split).
  rewrite E in Hx. destruct Hx.
Qed.

(** One round forward: a doomed row goes now or is doomed in the next round. *)
Lemma doomed_round (seed : A -> bool) (rows : list A) (x : A) :
  doomed key parent seed rows x ->
  seed x = true
  \/ doomed key parent (child_of key parent (List.filter seed rows))
            (List.filter (fun r => negb (seed r)) rows) x.
Proof.
  intros H. induction H as [x Hin Hs | x y Hin Hy IH Hp]; [now left|].
  destruct (seed x) eqn:Ex; [now left | right].
  assert (Hx : In x (List.filter (fun r => negb (seed r)) rows))
    by (apply filter_In; split; [assumption | now rewrite Ex]).
  destruct IH as [Hs | Hd].
  - apply doomed_seed; [assumption|]. apply child_of_spec. exists y. split; [|assumption].
    apply filter_In. split; [|assumption]. now inversion Hy.
  - now apply doomed_child with (y := y).
Qed.

(** One round back: what a later round dooms was doomed from the start. *)
Lemma doomed_unround (seed : A -> bool) (rows : list A) (x : A) :
  doomed key parent (child_of key parent (List.filter seed rows))
         (List.filter (fun r => negb (seed r)) rows) x ->
  doomed key parent seed rows x.
Proof.
  intros H. induction H as [x Hin Hs | x y Hin Hy IH Hp].
  - apply filter_In in Hin as [Hin _].
    apply child_of_spec in Hs as (d & Hd & E).
    apply filter_In in Hd as [Hd Hsd].
    apply doomed_child with (y := d); [assumption | now apply doomed_seed | assumption].
  - apply filter_In in Hin as [Hin _]. now apply doomed_child with (y := y).
Qed.

Lemma cascade_alive (fuel : nat) : forall (seed : A -> bool) (rows : list A) (x : A),
  length rows < fuel ->
  (In x (snd (cascade key parent fuel seed rows))
   <-> In x rows /\ ~ doomed key parent seed rows x).
Proof.
  induction fuel as [|n IH]; intros seed rows x Hlen; [lia|].
  simpl. destruct (List.filter seed rows) as [|a l] eqn:E.
  - simpl. split; [|tauto]. intros H. split; [assumption|]. now apply no_seed_no_doomed.
  - rewrite <- E.
    destruct (cascade key parent n _ _) as [d alive] eqn:Ec. simpl.
    assert (Hne : List.filter seed rows <> []) by (rewrite E; discriminate).
    pose proof (filter_negb_shrinks seed rows Hne) as Hsh.
    specialize (IH (child_of key parent (List.filter seed rows))
                   (List.filter (fun r => negb (seed r)) rows) x ltac:(lia)).
    rewrite Ec in IH. simpl in IH. rewrite IH. clear IH. split.
    + intros [Hin Hnd]. apply filter_In in Hin as [Hin Hs].
      split; [assumption|]. intros Hd. apply doomed_round in Hd as [Hd|Hd]; [|tauto].
      rewrite Hd in Hs. discriminate.
    + intros [Hin Hnd]. split.
      * apply filter_In. split; [assumption|].
        destruct (seed x) eqn:Ex; [|reflexivity].
        exfalso. apply Hnd. now apply doomed_seed.
      * intros Hd. apply Hnd. now apply doomed_unround.
Qed.

Lemma cascade_dead_doomed (fuel : nat) : forall (seed : A -> bool) (rows : list A) (x : A),
  In x (fst (cascade key parent fuel seed rows)) ->
  In x rows /\ doomed key parent seed rows x.
Proof.
  induction fuel as [|n IH]; intros seed rows x; cbn [cascade]; [simpl; tauto|].
  destruct (List.filter seed rows) as [|a l] eqn:E; [simpl; tauto|].
  rewrite <- E.
  destruct (cascade key parent n _ _) as [d alive] eqn:Ec. cbn [fst snd].
  intros H. apply in_app_or in H as [H|H].
  - apply filter_In in H as [Hin Hs]. split; [assumption | now apply doomed_seed].
  - specialize (IH (child_of key parent (List.filter seed rows))
                   (List.filter (fun r => negb (seed r)) rows) x).
    rewrite Ec in IH. destruct (IH H) as [Hin Hd].
    apply filter_In in Hin as [Hin _]. split; [assumption | now apply doomed_unround].
Qed.

Lemma cascade_partition (fuel : nat) : forall (seed : A -> bool) (rows : list A) (x : A),
  In x rows ->
  In x (fst (cascade key parent fuel seed rows))
  \/ In x (snd (cascade key parent fuel seed rows)).
Proof.
  induction fuel as [|n IH]; intros seed rows x Hin; cbn [cascade]; [now right|].
  destruct (List.filter seed rows) as [|a l] eqn:E; [now right|].
  rewrite <- E.
  destruct (cascade key parent n _ _) as [d alive] eqn:Ec. cbn [fst snd].
  destruct (seed x) eqn:Ex.
  - left. apply in_or_app. left. apply filter_In. now split.
  - specialize (IH (child_of key parent (List.filter seed rows))
                   (List.filter (fun r => negb (seed r)) rows) x).
    rewrite Ec in IH. destruct IH as [H|H].
    + apply filter_In. split; [assumption | now rewrite Ex].
    + left. apply in_or_app. now right.
    + now right.
Qed.

(** The deleted rows are the doomed rows, the others survive. *)
Lemma delete_cascade_dead (seed : A -> bool) (rows : list A) (x : A) :
  In x (fst (delete_cascade key parent seed rows))
  <-> In x rows /\ doomed key parent seed rows x.
Proof.
  unfold delete_cascade. split; [apply cascade_dead_doomed|].
  intros [Hin Hd].
  destruct (cascade_partition (S (length rows)) seed rows x Hin) as [H|H];
    [assumption|].
  apply cascade_alive in H; [tauto | lia].
Qed.

Lemma delete_cascade_alive (seed : A -> bool) (rows : list A) (x : A) :
  In x (snd (delete_cascade key parent seed rows))
  <-> In x rows /\ ~ doomed key parent seed rows x.
Proof. unfold delete_cascade. apply cascade_alive. lia. Qed.
End CascadeFacts.

(** ** Deleting a project *)

Lemma NoDup_map_inj {A B} (f : A -> B) (l : list A) (x y : A) :
  List.NoDup (map f l) -> In x l -> In y l -> f x = f y -> x = y.
Proof.
  induction l as [|a l IH]; simpl; intros Hnd Hx Hy E; [destruct Hx|].
  inversion Hnd as [|? ? Hnotin Hnd']; subst.
  destruct Hx as [<-|Hx], Hy as [<-|Hy].
  - reflexivity.
  - exfalso. apply Hnotin. rewrite E. now apply in_map.
  - exfalso. apply Hnotin. rewrite <- E. now apply in_map.
  - now apply IH.
Qed.

Lemma Forall2_map_self {A B} (R : A -> B -> Prop) (f : A -> B) (l : list A) :
  (forall x, In x l -> R x (f x)) -> Forall2 R l (map f l).
Proof.
  induction l as [|a l IH]; simpl; intros H; constructor.
  - apply H. now left.
  - apply IH. intros x Hx. apply H. now right.
Qed.

Lemma subproject_doomed (db : DB) (u : uuid) (P : Project.t) (q : uuid) :
  In P (projects db) -> Project.owner_id P = u ->
  subproject db (Project.id P) q ->
  exists x, In x (projects db) /\ Project.id x = q
            /\ doomed Project.id Project.parent_id
                      (delete_project_target db u (Project.id P)) (projects db) x.
Proof.
  intros HP Hown H. induction H as [|p q Hq IH Hp Hpar].
  - exists P. repeat split; [assumption|]. apply doomed_seed; [assumption|].
    unfold delete_project_target, projects_select, projects_delete,
      projects_delete_own, projects_view_own.
    rewrite Hown, !String.eqb_refl. reflexivity.
  - destruct IH as (y & Hy & Ey & Hd). exists p. repeat split; [assumption|].
    apply doomed_child with (y := y); [assumption .. | now rewrite Ey].
Qed.

Lemma detach_clears_project (now : timestamp) (dp ds : list uuid) (t : Task.t) (q : uuid) :
  Task.project_id t = Some q -> In q dp ->
  Task.project_id (detach now dp ds t) = None.
Proof.
  intros Hq Hin. unfold detach.
  assert (E : col_mem (Task.project_id t) dp = true) by (apply col_mem_In; eauto).
  rewrite E. now destruct (col_mem _ ds).
Qed.

Lemma detach_keeps (now : timestamp) (dp ds : list uuid) (t : Task.t) :
  same_content t (detach now dp ds t)
  /\ Task.blocked_by (detach now dp ds t) = Task.blocked_by t.
Proof.
  unfold detach, same_content. destruct (col_mem (Task.project_id t) dp);
    match goal with |- context [if ?b then _ else _] => destruct b end;
    repeat split; reflexivity.
Qed.

(** The ON DELETE actions of the schema, evaluated on the rows: once the
    DELETE of a project by its owner is carried out, the project and all
    its subprojects (transitively) are gone, no section of any of them
    remains, and every task row is kept under its id, with its project
    reference cleared if it pointed at the project or a subproject. *)
Lemma useDeleteProject_cascade_and_inbox (db : DB) (u : uuid) (now : timestamp)
    (P : Project.t) :
  projects_pkey db ->
  In P (projects db) ->
  Project.owner_id P = u ->
  let db' := fst (useDeleteProject db u now (Project.id P)) in
  (forall q, subproject db (Project.id P) q ->
             ~ In q (map Project.id (projects db'))
             /\ (forall s, In s (sections db') -> Section_.project_id s <> q))
  /\ Forall2 (moved_to_inbox db (Project.id P)) (tasks db) (tasks db').
Proof.
  intros Hpk HP Hown db'. subst db'. unfold useDeleteProject.
  destruct (delete_cascade Project.id Project.parent_id
              (delete_project_target db u (Project.id P)) (projects db))
    as [dead alive] eqn:Ec.
  cbn [fst projects sections tasks].
  assert (Hdead : forall q, subproject db (Project.id P) q ->
                            In q (map Project.id dead)
                            /\ ~ In q (map Project.id alive)).
  { intros q Hq.
    destruct (subproject_doomed db u P q HP Hown Hq) as (x & Hx & Ex & Hd).
    split.
    - rewrite <- Ex. apply in_map.
      change dead with (fst (dead, alive)). rewrite <- Ec.
      apply delete_cascade_dead. now split.
    - intros Hin. apply in_map_iff in Hin as (y & Ey & Hy).
      change alive with (snd (dead, alive)) in Hy. rewrite <- Ec in Hy.
      apply delete_cascade_alive in Hy as [Hy Hnd].
      assert (y = x)
        by (apply (NoDup_map_inj Project.id (projects db));
            [exact Hpk | assumption | assumption | congruence]).
      subst y. contradiction. }
  split.
  - intros q Hq. destruct (Hdead q Hq) as [Hd Ha]. split; [assumption|].
    intros s Hs E. apply filter_In in Hs as [_ Hs].
    apply negb_true_iff in Hs.
    assert (Hm : mem (Section_.project_id s) (map Project.id dead) = true)
      by (apply mem_In; now rewrite E).
    congruence.
  - apply Forall2_map_self. intros t _.
    destruct (detach_keeps now (map Project.id dead)
                (map Section_.id
                   (List.filter (fun s => mem (Section_.project_id s) (map Project.id dead))
                                (sections db))) t) as (H1 & H2).
    unfold moved_to_inbox. split; [assumption|]. split; [assumption|].
    intros q Hq Hs. apply detach_clears_project with (q := q); [assumption|].
    now apply Hdead.
Qed.

(** ** Deleting a task *)

Lemma doomed_subtask (db : DB) (seed : Task.t -> bool) (root : uuid) (x : Task.t) :
  (forall t, seed t = true -> Task.id t = root) ->
  doomed Task.id Task.parent_task_id seed (tasks db) x ->
  subtask db root (Task.id x).
Proof.
  intros Hseed H. induction H as [x Hin Hs | x y Hin Hy IH Hp].
  - rewrite (Hseed x Hs). constructor.
  - now apply subtask_child with (q := Task.id y).
Qed.

Lemma isBlocked_unset (db : DB) (t : Task.t) :
  Task.blocked_by t = None -> isBlocked db t = false.
Proof. unfold isBlocked. now intros ->. Qed.

(** The ON DELETE actions of the schema, evaluated on the rows: once the
    DELETE of X by a caller who may delete it is carried out, a task Y
    that named X in [blocked_by] and is not among X's subtasks is kept:
    its [blocked_by] is NULL, so it is not blocked, [updated_at] is
    stamped by the trigger, and every other column is as it was.  (A Y
    among X's subtasks goes with X: [parent_task_id] is ON DELETE
    CASCADE.) *)
Lemma useDeleteTask_clears_blocked_by (db : DB) (u : uuid) (now : timestamp)
    (X Y : Task.t) :
  In X (tasks db) ->
  tasks_select db u X = true ->
  tasks_delete db u X = true ->
  In Y (tasks db) ->
  Task.blocked_by Y = Some (Task.id X) ->
  ~ subtask db (Task.id X) (Task.id Y) ->
  let db' := fst (useDeleteTask db u now (Task.id X)) in
  let Y' := Task.touch now (Task.set_blocked_by None Y) in
  In Y' (tasks db')
  /\ Task.blocked_by Y' = None
  /\ isBlocked db' Y' = false
  /\ same_content Y Y'
  /\ Task.project_id Y' = Task.project_id Y
  /\ Task.section_id Y' = Task.section_id Y
  /\ Task.updated_at Y' = now.
Proof.
  intros HX Hsel Hdel HY Hb Hns db' Y'. subst db' Y'. unfold useDeleteTask.
  destruct (delete_cascade Task.id Task.parent_task_id
              (delete_task_target db u (Task.id X)) (tasks db))
    as [dead alive] eqn:Ec.
  cbn [fst tasks with_tasks].
  split; [|repeat split; reflexivity].
  assert (HXd : In (Task.id X) (map Task.id dead)).
  { apply in_map. change dead with (fst (dead, alive)). rewrite <- Ec.
    apply delete_cascade_dead. split; [assumption|].
    apply doomed_seed; [assumption|]. unfold delete_task_target.
    now rewrite String.eqb_refl, Hsel, Hdel. }
  assert (HYa : In Y alive).
  { change alive with (snd (dead, alive)). rewrite <- Ec.
    apply delete_cascade_alive. split; [assumption|]. intros Hd. apply Hns.
    apply doomed_subtask with (seed := delete_task_target db u (Task.id X));
      [|assumption].
    intros t Ht. unfold delete_task_target in Ht.
    apply andb_prop in Ht as [Ht _]. apply andb_prop in Ht as [Ht _].
    now apply String.eqb_eq. }
  apply in_map_iff. exists Y. split; [|assumption].
  unfold unblock.
  assert (E : col_mem (Task.blocked_by Y) (map Task.id dead) = true)
    by (apply col_mem_In; eauto).
  now rewrite E.
Qed.

(** ** Updating a task *)


(** ** The completion invariant *)





(** ** The task tree of [useTasks] *)

Lemma buildTaskMap_lookup (l : list FetchedTask) :
  forall (m : gmap string TaskNode) (k : string) (n : TaskNode),
    fold_left (fun m f => <[Task.id (row f) := mkNode f []]> m) l m !! k = Some n ->
    m !! k = Some n
    \/ exists g, In g l /\ Task.id (row g) = k /\ n = mkNode g [].
Proof.
  induction l as [|f l IH]; intros m k n H; simpl in H; [now left|].
  apply IH in H as [H | (g & Hg & Ek & En)].
  - apply lookup_insert_Some in H as [[Ek En] | [_ H]]; [right | now left].
    exists f. repeat split; [now left | assumption | now symmetry].
  - right. exists g. repeat split; [now right | assumption ..].
Qed.

Lemma attach_cases (m : gmap string TaskNode) (top : list uuid) (f : FetchedTask) :
  (exists par, attach (m, top) f
               = (alter (push_subtask (Task.id (row f))) par m, top)
               /\ Task.parent_task_id (row f) = Some par
               /\ is_Some (m !! par))
  \/ (attach (m, top) f = (m, top ++ [Task.id (row f)])
      /\ truthy (Task.parent_task_id (row f)) = false)
  \/ attach (m, top) f = (m, top).
Proof.
  unfold attach. destruct (Task.parent_task_id (row f)) as [par|] eqn:Ep.
  - destruct (truthy (Some par)) eqn:Et; cbn [andb negb].
    + destruct (bool_decide (is_Some (m !! par))) eqn:Eb.
      * left. exists par. apply bool_decide_eq_true in Eb. now repeat split.
      * right. now right.
    + right. left. now split.
  - right. left. now split.
Qed.

Lemma fold_attach_top (l : list FetchedTask) :
  forall (m : gmap string TaskNode) (top : list uuid) (r : uuid),
    In r (snd (fold_left attach l (m, top))) ->
    In r top
    \/ exists g, In g l /\ Task.id (row g) = r
                 /\ truthy (Task.parent_task_id (row g)) = false.
Proof.
  induction l as [|f l IH]; intros m top r H; cbn [fold_left] in H; [now left|].
  destruct (attach_cases m top f) as [(par & E & _) | [[E Ht] | E]];
    rewrite E in H; apply IH in H as [H | (g & Hg & Hr & Htg)].
  - now left.
  - right. exists g. repeat split; [now right | assumption ..].
  - apply in_app_or in H as [H | [<- | []]]; [now left|].
    right. exists f. repeat split; [now left | assumption].
  - right. exists g. repeat split; [now right | assumption ..].
  - now left.
  - right. exists g. repeat split; [now right | assumption ..].
Qed.

Lemma fold_attach_sub (l : list FetchedTask) :
  forall (m : gmap string TaskNode) (top : list uuid) (p : string) (n : TaskNode)
         (r : uuid),
    fst (fold_left attach l (m, top)) !! p = Some n ->
    In r (subtasks n) ->
    (exists n0, m !! p = Some n0 /\ In r (subtasks n0))
    \/ exists g, In g l /\ Task.id (row g) = r
                 /\ Task.parent_task_id (row g) = Some p
                 /\ is_Some (m !! p).
Proof.
  induction l as [|f l IH]; intros m top p n r H Hr; cbn [fold_left] in H.
  - left. exists n. now split.
  - destruct (attach_cases m top f) as [(par & E & Hp & Hs) | [[E _] | E]];
      rewrite E in H; destruct (IH _ _ _ _ _ H Hr) as [(n0 & Hn0 & Hr0) | (g & Hg & Eg & Hpg & Hsg)].
    + apply lookup_alter_Some in Hn0 as [(-> & x & Hx & ->) | (_ & Hn0)].
      * cbn [push_subtask subtasks] in Hr0.
        apply in_app_or in Hr0 as [Hr0 | [<- | []]].
        -- left. exists x. now split.
        -- right. exists f. repeat split; [now left | assumption ..].
      * left. exists n0. now split.
    + right. exists g. repeat split; [now right | assumption .. |].
      now apply lookup_alter_is_Some in Hsg.
    + left. exists n0. now split.
    + right. exists g. repeat split; [now right | assumption ..].
    + left. exists n0. now split.
    + right. exists g. repeat split; [now right | assumption ..].
Qed.

(** The arrays of the result hold only what the loop put there. *)
Lemma assembleTasks_top (allTasks : list FetchedTask) (r : uuid) :
  In r (snd (assembleTasks allTasks)) ->
  exists g, In g allTasks /\ Task.id (row g) = r
            /\ truthy (Task.parent_task_id (row g)) = false.
Proof.
  intros H. apply fold_attach_top in H as [[] | H]. exact H.
Qed.

Lemma assembleTasks_sub (allTasks : list FetchedTask) (p : string) (n : TaskNode)
    (r : uuid) :
  fst (assembleTasks allTasks) !! p = Some n ->
  In r (subtasks n) ->
  exists g parent, In g allTasks /\ Task.id (row g) = r
                   /\ Task.parent_task_id (row g) = Some p
                   /\ In parent allTasks /\ Task.id (row parent) = p.
Proof.
  intros H Hr.
  destruct (fold_attach_sub _ _ _ _ _ _ H Hr) as [(n0 & Hn0 & Hr0) | (g & Hg & Eg & Hp & [x Hx])].
  - apply buildTaskMap_lookup in Hn0 as [Hn0 | (g & _ & _ & ->)].
    + now rewrite lookup_empty in Hn0.
    + destruct Hr0.
  - apply buildTaskMap_lookup in Hx as [Hx | (q & Hq & Eq & _)].
    + now rewrite lookup_empty in Hx.
    + exists g, q. now repeat split.
Qed.

(** The loop drops a row whose parent reference is set while the parent is
    not in the list. *)
Lemma assembleTasks_drops_orphan (allTasks : list FetchedTask)
    (t : FetchedTask) :
  List.NoDup (map (fun f => Task.id (row f)) allTasks) ->
  In t allTasks ->
  truthy (Task.parent_task_id (row t)) = true ->
  (forall g, In g allTasks -> Task.parent_task_id (row t) <> Some (Task.id (row g))) ->
  let res := assembleTasks allTasks in
  ~ In (Task.id (row t)) (snd res)
  /\ (forall p n, fst res !! p = Some n -> ~ In (Task.id (row t)) (subtasks n))
  /\ ~ appears res (Task.id (row t)).
Proof.
  intros Hnd Ht Hset Horphan res. subst res.
  assert (Htop : ~ In (Task.id (row t)) (snd (assembleTasks allTasks))).
  { intros H. apply assembleTasks_top in H as (g & Hg & Eg & Hf).
    assert (g = t)
      by (apply (NoDup_map_inj (fun f => Task.id (row f)) allTasks); assumption).
    subst g. congruence. }
  assert (Hsub : forall p n, fst (assembleTasks allTasks) !! p = Some n ->
                             ~ In (Task.id (row t)) (subtasks n)).
  { intros p n Hn H.
    destruct (assembleTasks_sub _ _ _ _ Hn H) as (g & q & Hg & Eg & Hp & Hq & Eq).
    assert (g = t)
      by (apply (NoDup_map_inj (fun f => Task.id (row f)) allTasks); assumption).
    subst g. apply (Horphan q Hq). now rewrite Eq. }
  repeat split; try assumption.
  intros H. inversion H as [r Hr | p n r Hp Hn Hr]; subst.
  - now apply Htop.
  - now apply (Hsub p n).
Qed.

(** The query keeps ids unique: it filters and reorders the table. *)
Lemma insert_by_sort_order_perm (t : Task.t) (l : list Task.t) :
  Permutation (t :: l) (insert_by_sort_order t l).
Proof.
  induction l as [|x r IH]; simpl; [reflexivity|].
  destruct (Task.sort_order t <? Task.sort_order x)%Z; [reflexivity|].
  eapply perm_trans; [apply perm_swap | now apply perm_skip].
Qed.

Lemma order_by_sort_order_perm (l : list Task.t) :
  Permutation l (order_by_sort_order l).
Proof.
  induction l as [|x r IH]; simpl; [reflexivity|].
  eapply perm_trans; [apply perm_skip, IH | apply insert_by_sort_order_perm].
Qed.

Lemma NoDup_map_filter {A B} (f : A -> B) (g : A -> bool) (l : list A) :
  List.NoDup (map f l) -> List.NoDup (map f (List.filter g l)).
Proof.
  induction l as [|a l IH]; simpl; intros H; [constructor|].
  inversion H as [|? ? Hnotin Hnd]; subst.
  destruct (g a); simpl; [|now apply IH].
  constructor; [|now apply IH].
  intros Hin. apply Hnotin. apply in_map_iff in Hin as (x & E & Hx).
  apply filter_In in Hx as [Hx _]. rewrite <- E. now apply in_map.
Qed.

Lemma fetchTasks_pkey (db : DB) (u : uuid) (o : UseTasksOptions) (d1 d2 : date) :
  tasks_pkey db ->
  List.NoDup (map (fun f => Task.id (row f)) (fetchTasks db u o d1 d2)).
Proof.
  intros Hpk. unfold fetchTasks. rewrite map_map. cbn [row].
  eapply Permutation.Permutation_NoDup.
  - apply Permutation.Permutation_map. apply order_by_sort_order_perm.
  - now apply NoDup_map_filter.
Qed.

(** C10. In the list [useTasks] assembles, a fetched task whose parent
    reference is set while the parent is not among the fetched tasks is in
    no array of the result: not in the returned [topLevelTasks], not in
    any object's [subtasks], hence nowhere a caller can get at. *)
Theorem useTasks_drops_orphaned_subtask (db : DB) (u : uuid) (o : UseTasksOptions)
    (todayStr twoWeeksStr : date) (t : FetchedTask) :
  tasks_pkey db ->
  In t (fetchTasks db u o todayStr twoWeeksStr) ->
  truthy (Task.parent_task_id (row t)) = true ->
  (forall g, In g (fetchTasks db u o todayStr twoWeeksStr) ->
             Task.parent_task_id (row t) <> Some (Task.id (row g))) ->
  let res := useTasks db u o todayStr twoWeeksStr in
  ~ In (Task.id (row t)) (snd res)
  /\ (forall p n, fst res !! p = Some n -> ~ In (Task.id (row t)) (subtasks n))
  /\ ~ appears res (Task.id (row t)).
Proof.
  intros Hpk Ht Hset Horphan. unfold useTasks.
  apply assembleTasks_drops_orphan; try assumption.
  now apply fetchTasks_pkey.
Qed.

(** ** The hooks on sample stores *)

Example grant_opens_the_parent_only :
  let t2 := Task.set_project_id (Some "P") (sample_task "t2" "alice" "in parent") in
  let t1 := Task.set_project_id (Some "C") (sample_task "t1" "alice" "in child") in
  let db' := fst (grantShare db_family "alice"
                    (ProjectShare.mk "s1" "P" "bob" edit "2024-02-01T00:00:00.000Z")) in
  canRead db_family "bob" t2 = false
  /\ canRead db' "bob" t2 = true
  /\ tasks_update_using db' "bob" t2 = true
  /\ canRead db' "bob" t1 = false.
Proof. repeat split; reflexivity. Qed.

Example useTasks_attaches_fetched_subtask :
  let res := assembleTasks
               [mkFetched (sample_task "par" "alice" "parent") None;
                mkFetched (with_parent_task "par" (sample_task "sub" "alice" "child")) None] in
  snd res = ["par"]
  /\ subtasks <$> (fst res !! "par") = Some ["sub"].
Proof. split; reflexivity. Qed.

(** ** The theorems at concrete stores *)

Lemma share_on_parent_leaves_child_access_witness :
  let db' := fst (grantShare db_family "alice"
                    (ProjectShare.mk "s1" "P" "bob" edit "2024-02-01T00:00:00.000Z")) in
  project_shares db' <> project_shares db_family
  /\ forall t, Task.project_id t = Some "C" ->
               canRead db' "bob" t = canRead db_family "bob" t.
Proof.
  cbv zeta. split; [vm_compute; discriminate|].
  intros t Ht.
  apply (share_on_parent_leaves_child_access db_family "alice" "bob" "s1"
           "2024-02-01T00:00:00.000Z" project_P project_C).
  - reflexivity.
  - discriminate.
  - exact Ht.
Defined.

Lemma useTasks_drops_orphaned_subtask_witness :
  let res := useTasks db_done_parent "alice" no_options "2024-01-10" "2024-01-24" in
  snd res = [] /\ ~ appears res "sub".
Proof.
  cbv zeta. split; [reflexivity|].
  apply (useTasks_drops_orphaned_subtask db_done_parent "alice" no_options
           "2024-01-10" "2024-01-24"
           (mkFetched (with_parent_task "par" (sample_task "sub" "alice" "child")) None)).
  - unfold tasks_pkey. simpl. solve_pkey.
  - left. reflexivity.
  - reflexivity.
  - intros g [<-|[]]. discriminate.
Defined.

(** * Further properties of the policies and hooks *)

(** ** What the task policies let a caller do *)







(** ** What [useTasks] fetches and how it arranges it *)

Lemma insert_by_sort_order_sorted (t : Task.t) (l : list Task.t) :
  StronglySorted (fun a b => (Task.sort_order a <= Task.sort_order b)%Z) l ->
  StronglySorted (fun a b => (Task.sort_order a <= Task.sort_order b)%Z)
                 (insert_by_sort_order t l).
Proof.
  induction l as [|x r IH]; simpl; intros H.
  - constructor; constructor.
  - inversion H as [|? ? Hr Hx]; subst.
    destruct (Task.sort_order t <? Task.sort_order x)%Z eqn:E.
    + apply Z.ltb_lt in E. constructor; [assumption|].
      constructor; [lia|]. rewrite List.Forall_forall in *. intros y Hy.
      specialize (Hx y Hy). lia.
    + apply Z.ltb_ge in E. constructor; [now apply IH|].
      rewrite List.Forall_forall in *. intros y Hy.
      apply (Permutation_in _ (Permutation_sym (insert_by_sort_order_perm t r))) in Hy.
      destruct Hy as [<-|Hy]; [assumption | now apply Hx].
Qed.

Lemma order_by_sort_order_sorted (l : list Task.t) :
  StronglySorted (fun a b => (Task.sort_order a <= Task.sort_order b)%Z)
                 (order_by_sort_order l).
Proof.
  induction l as [|x r IH]; simpl; [constructor|].
  now apply insert_by_sort_order_sorted.
Qed.

Lemma StronglySorted_map {A B} (R : B -> B -> Prop) (f : A -> B) (l : list A) :
  StronglySorted (fun a b => R (f a) (f b)) l -> StronglySorted R (map f l).
Proof.
  induction 1 as [|a l Hl IH Ha]; simpl; constructor; [assumption|].
  rewrite List.Forall_forall in *. intros y Hy.
  apply in_map_iff in Hy as (x & <- & Hx). now apply Ha.
Qed.

(** The fetched rows come in ascending [sort_order]. *)
Theorem fetchTasks_ascending_sort_order (db : DB) (u : uuid) (o : UseTasksOptions)
    (todayStr twoWeeksStr : date) :
  StronglySorted Z.le
    (map (fun f => Task.sort_order (row f)) (fetchTasks db u o todayStr twoWeeksStr)).
Proof.
  unfold fetchTasks. rewrite map_map. cbn [row].
  apply StronglySorted_map. apply order_by_sort_order_sorted.
Qed.

Lemma fold_attach_top_exact (l : list FetchedTask) :
  forall (m : gmap string TaskNode) (top : list uuid),
    snd (fold_left attach l (m, top))
    = top ++ map (fun f => Task.id (row f))
                 (List.filter (fun f => negb (truthy (Task.parent_task_id (row f)))) l).
Proof.
  induction l as [|f l IH]; intros m top; cbn [fold_left List.filter map].
  - now rewrite app_nil_r.
  - unfold attach at 2. destruct (Task.parent_task_id (row f)) as [par|] eqn:Ep.
    + destruct (truthy (Some par)) eqn:Et; cbn [andb negb].
      * destruct (bool_decide (is_Some (m !! par))); apply IH.
      * rewrite IH. cbn [map]. now rewrite <- app_assoc.
    + cbn [truthy negb]. rewrite IH. cbn [map]. now rewrite <- app_assoc.
Qed.

(** The array [useTasks] returns holds, in fetch order, exactly the
    fetched rows whose parent reference is null (or empty): each of them
    once, and never a row with a parent. *)
Theorem assembleTasks_top_level_exact (allTasks : list FetchedTask) :
  snd (assembleTasks allTasks)
  = map (fun f => Task.id (row f))
        (List.filter (fun f => negb (truthy (Task.parent_task_id (row f)))) allTasks).
Proof. unfold assembleTasks. now rewrite fold_attach_top_exact. Qed.

Lemma fold_attach_node (l : list FetchedTask) :
  forall (m : gmap string TaskNode) (top : list uuid) (k : string) (n : TaskNode),
    m !! k = Some n ->
    fst (fold_left attach l (m, top)) !! k
    = Some (mkNode (node_task n)
              (subtasks n ++ map (fun f => Task.id (row f))
                                 (List.filter (attaches_to k) l))).
Proof.
  induction l as [|f l IH]; intros m top k n Hk; cbn [fold_left List.filter map].
  - rewrite app_nil_r. now destruct n.
  - unfold attach at 2. unfold attaches_to at 1.
    destruct (Task.parent_task_id (row f)) as [par|] eqn:Ep.
    + destruct (truthy (Some par)) eqn:Et; cbn [andb negb].
      * destruct (bool_decide (is_Some (m !! par))) eqn:Eb.
        -- destruct (String.eqb par k) eqn:Ek.
           ++ apply String.eqb_eq in Ek. subst par.
              rewrite (IH _ top k (push_subtask (Task.id (row f)) n)).
              ** cbn [push_subtask node_task subtasks map]. now rewrite <- app_assoc.
              ** rewrite lookup_alter_eq, Hk. reflexivity.
           ++ apply String.eqb_neq in Ek. apply IH.
              now rewrite lookup_alter_ne.
        -- destruct (String.eqb par k) eqn:Ek.
           ++ apply String.eqb_eq in Ek. subst par.
              apply bool_decide_eq_false in Eb. exfalso. apply Eb. now exists n.
           ++ now apply IH.
      * rewrite andb_false_r. now apply IH.
    + now apply IH.
Qed.

Lemma buildTaskMap_has (l : list FetchedTask) (g : FetchedTask) :
  forall m : gmap string TaskNode,
    In g l ->
    is_Some (fold_left (fun m f => <[Task.id (row f) := mkNode f []]> m) l m
             !! Task.id (row g)).
Proof.
  assert (Hkeep : forall l (m : gmap string TaskNode) k,
             is_Some (m !! k) ->
             is_Some (fold_left (fun m f => <[Task.id (row f) := mkNode f []]> m) l m !! k)).
  { clear. induction l as [|f l IH]; intros m k H; simpl; [assumption|].
    apply IH. apply lookup_insert_is_Some'. now right. }
  induction l as [|f l IH]; intros m Hin; [destruct Hin|].
  destruct Hin as [<-|Hin]; simpl.
  - apply Hkeep. apply lookup_insert_is_Some'. now left.
  - now apply IH.
Qed.

(** With unique ids, the object of a fetched row carries that row, and its
    [subtasks] array holds, in fetch order, exactly the fetched rows whose
    parent reference is its id. *)
Theorem assembleTasks_subtasks_exact (allTasks : list FetchedTask) (g : FetchedTask) :
  List.NoDup (map (fun f => Task.id (row f)) allTasks) ->
  In g allTasks ->
  fst (assembleTasks allTasks) !! Task.id (row g)
  = Some (mkNode g (map (fun f => Task.id (row f))
                        (List.filter (attaches_to (Task.id (row g))) allTasks))).
Proof.
  intros Hnd Hg. unfold assembleTasks.
  destruct (buildTaskMap_has allTasks g ∅ Hg) as [n Hn].
  pose proof (fold_attach_node allTasks (buildTaskMap allTasks) [] _ n Hn) as Hf.
  apply buildTaskMap_lookup in Hn as [Hn | (g' & Hg' & E & ->)].
  - now rewrite lookup_empty in Hn.
  - assert (g' = g)
      by (apply (NoDup_map_inj (fun f => Task.id (row f)) allTasks); assumption).
    subst g'. exact Hf.
Qed.

Lemma filter_length_bound {A} (f : A -> bool) (l : list A) :
  length (List.filter f l) <= length l.
Proof. induction l as [|a l IH]; simpl; [lia|]. destruct (f a); simpl; lia. Qed.

(** The sidebar badges count the rows the Inbox and Today views fetch,
    subtasks included, so a badge is never smaller than the number of
    top-level tasks its view lists. *)
Theorem badge_counts_match_fetched_rows (db : DB) (u : uuid)
    (todayStr twoWeeksStr : date) :
  useInboxCount db u = length (fetchTasks db u inbox_options todayStr twoWeeksStr)
  /\ useTodayCount db u todayStr
     = length (fetchTasks db u today_options todayStr twoWeeksStr)
  /\ length (snd (useTasks db u inbox_options todayStr twoWeeksStr)) <= useInboxCount db u
  /\ length (snd (useTasks db u today_options todayStr twoWeeksStr))
     <= useTodayCount db u todayStr.
Proof.
  assert (H1 : useInboxCount db u
               = length (fetchTasks db u inbox_options todayStr twoWeeksStr)).
  { unfold useInboxCount, fetchTasks. rewrite length_map.
    rewrite <- (Permutation_length (order_by_sort_order_perm _)). reflexivity. }
  assert (H2 : useTodayCount db u todayStr
               = length (fetchTasks db u today_options todayStr twoWeeksStr)).
  { unfold useTodayCount, fetchTasks. rewrite length_map.
    rewrite <- (Permutation_length (order_by_sort_order_perm _)). reflexivity. }
  repeat split; try assumption.
  - rewrite H1. unfold useTasks, assembleTasks. rewrite fold_attach_top_exact.
    cbn [app]. rewrite length_map. apply filter_length_bound.
  - rewrite H2. unfold useTasks, assembleTasks. rewrite fold_attach_top_exact.
    cbn [app]. rewrite length_map. apply filter_length_bound.
Qed.

(** ** Edges of the task mutations *)






(** ** Edges of the deletions *)



(** ** Creating a task *)

Lemma NoDup_snoc {A} (l : list A) (x : A) :
  List.NoDup l -> ~ In x l -> List.NoDup (l ++ [x]).
Proof.
  induction l as [|a l IH]; simpl; intros Hnd Hx.
  - constructor; [intros [] | constructor].
  - inversion Hnd as [|? ? Ha Hl]; subst. constructor.
    + intros Hin. apply in_app_or in Hin as [Hin | [<- | []]]; [contradiction|].
      apply Hx. now left.
    + apply IH; [assumption|]. intros Hin. apply Hx. now right.
Qed.

(** [useCreateTask] either rejects and leaves the store as it was, or
    appends exactly one row: under the drawn id, owned by the caller, open,
    not completed, without predecessor or recurrence.  Either way ids stay
    unique and the completion invariant is kept. *)
Theorem useCreateTask_appends_one_own_open_row (db : DB) (user : option uuid)
    (new_id : uuid) (now : timestamp) (input : CreateTaskInput.t) :
  match snd (useCreateTask db user new_id now input) with
  | Fulfilled r =>
      tasks (fst (useCreateTask db user new_id now input)) = tasks db ++ [r]
      /\ user = Some (Task.owner_id r)
      /\ Task.id r = new_id
      /\ Task.status r = open
      /\ Task.completed_at r = None
      /\ Task.blocked_by r = None
      /\ Task.recurrence_rule r = None
  | Rejected _ => fst (useCreateTask db user new_id now input) = db
  end
  /\ (tasks_pkey db -> tasks_pkey (fst (useCreateTask db user new_id now input)))
  /\ (all_consistent db -> all_consistent (fst (useCreateTask db user new_id now input))).
Proof.
  unfold useCreateTask. destruct user as [uid|]; [|now repeat split].
  destruct (negb (tasks_insert_check db uid _ && tasks_select db uid _));
    [now repeat split|].
  destruct (negb (priority_check _)); [now repeat split|].
  destruct (mem new_id (map Task.id (tasks db))) eqn:Em; [now repeat split|].
  destruct (negb _); [now repeat split|].
  cbn [fst snd tasks with_tasks]. split; [now repeat split|]. split.
  - unfold tasks_pkey. cbn [tasks with_tasks]. intros Hpk. rewrite map_app.
    apply NoDup_snoc; [assumption|]. cbn [map new_task_row Task.id].
    intros Hin. apply mem_In in Hin. congruence.
  - unfold all_consistent. cbn [tasks with_tasks]. intros Hc.
    apply Forall_app. split; [assumption|]. now repeat constructor.
Qed.


(** ** Sections *)



(** ** The project tree of the sidebar *)

Lemma buildProjectMap_dom (l : list Project.t) :
  forall (m : gmap string ProjectNode) (k : string),
    is_Some (fold_left (fun m p => <[Project.id p := mkProjectNode p []]> m) l m !! k)
    <-> is_Some (m !! k) \/ In k (map Project.id l).
Proof.
  induction l as [|p l IH]; intros m k; simpl; [tauto|].
  rewrite IH, lookup_insert_is_Some'. split.
  - intros [[->|H]|H]; auto.
  - intros [H|[->|H]]; auto.
Qed.

Lemma fold_attach_project_roots (l : list Project.t) (ids : list uuid) :
  forall (m : gmap string ProjectNode) (roots : list uuid),
    (forall k, is_Some (m !! k) <-> In k ids) ->
    snd (fold_left attach_project l (m, roots))
    = roots ++ map Project.id
                   (List.filter (fun p => negb (truthy (Project.parent_id p)
                                                && col_mem (Project.parent_id p) ids)) l).
Proof.
  induction l as [|p l IH]; intros m roots Hdom; cbn [fold_left List.filter map].
  - now rewrite app_nil_r.
  - unfold attach_project at 2. destruct (Project.parent_id p) as [par|] eqn:Ep.
    + destruct (truthy (Some par)) eqn:Et; cbn [andb negb col_mem].
      * destruct (bool_decide (is_Some (m !! par))) eqn:Eb.
        -- apply bool_decide_eq_true in Eb. apply Hdom in Eb. apply mem_In in Eb.
           rewrite Eb. cbn [negb]. apply IH. intros k.
           now rewrite lookup_alter_is_Some.
        -- apply bool_decide_eq_false in Eb.
           assert (Em : mem par ids = false).
           { apply not_true_is_false. intros Hm. apply Eb. apply Hdom.
             now apply mem_In. }
           rewrite Em. cbn [negb]. rewrite (IH _ _ Hdom). cbn [map].
           now rewrite <- app_assoc.
      * rewrite (IH _ _ Hdom). cbn [map]. now rewrite <- app_assoc.
    + cbn [truthy andb negb]. rewrite (IH _ _ Hdom). cbn [map]. now rewrite <- app_assoc.
Qed.

Lemma buildProjectTree_roots (ps : list Project.t) :
  snd (buildProjectTree ps)
  = map Project.id (List.filter (fun p => negb (has_listed_parent ps p)) ps).
Proof.
  unfold buildProjectTree, has_listed_parent.
  rewrite (fold_attach_project_roots ps (map Project.id ps)); [reflexivity|].
  intros k. unfold buildProjectMap. rewrite buildProjectMap_dom.
  split; [intros [H|H]; [|assumption] | auto].
  destruct H as [x Hx]. now rewrite lookup_empty in Hx.
Qed.

(** The roots [buildProjectTree] returns are, in list order, exactly the
    projects that have no parent or whose parent is not in the list: a
    subproject whose parent is missing from the list (archived, or not
    shared with the caller) is shown at top level, not dropped. *)
Theorem buildProjectTree_roots_exact (ps : list Project.t) :
  snd (buildProjectTree ps)
  = map Project.id (List.filter (fun p => negb (has_listed_parent ps p)) ps).
Proof. apply buildProjectTree_roots. Qed.

Lemma fold_attach_project_node (l : list Project.t) :
  forall (m : gmap string ProjectNode) (roots : list uuid) (k : string) (n : ProjectNode),
    m !! k = Some n ->
    fst (fold_left attach_project l (m, roots)) !! k
    = Some (mkProjectNode (node_project n)
              (children n ++ map Project.id (List.filter (goes_under k) l))).
Proof.
  induction l as [|p l IH]; intros m roots k n Hk; cbn [fold_left List.filter map].
  - rewrite app_nil_r. now destruct n.
  - unfold attach_project at 2. unfold goes_under at 1.
    destruct (Project.parent_id p) as [par|] eqn:Ep.
    + destruct (truthy (Some par)) eqn:Et; cbn [andb negb].
      * destruct (bool_decide (is_Some (m !! par))) eqn:Eb.
        -- destruct (String.eqb par k) eqn:Ek.
           ++ apply String.eqb_eq in Ek. subst par.
              rewrite (IH _ roots k (push_child (Project.id p) n)).
              ** cbn [push_child node_project children map]. now rewrite <- app_assoc.
              ** rewrite lookup_alter_eq, Hk. reflexivity.
           ++ apply String.eqb_neq in Ek. apply IH.
              now rewrite lookup_alter_ne.
        -- destruct (String.eqb par k) eqn:Ek.
           ++ apply String.eqb_eq in Ek. subst par.
              apply bool_decide_eq_false in Eb. exfalso. apply Eb. now exists n.
           ++ now apply IH.
      * rewrite andb_false_r. now apply IH.
    + now apply IH.
Qed.

(** Every listed project whose chain of listed parents ends without a
    cycle is in the tree: it can be reached from the returned roots. *)
Theorem buildProjectTree_shows_grounded (ps : list Project.t) (p : Project.t) :
  grounded ps p -> shown (buildProjectTree ps) (Project.id p).
Proof.
  intros H. induction H as [p Hp Hroot | p q Hp Hq Hpar Hg IH].
  - apply shown_root. rewrite buildProjectTree_roots. apply in_map.
    apply filter_In. split; [assumption | now rewrite Hroot].
  - destruct (has_listed_parent ps p) eqn:Eh.
    + assert (Hsome : is_Some (buildProjectMap ps !! Project.id q)).
      { unfold buildProjectMap. apply buildProjectMap_dom. right. now apply in_map. }
      destruct Hsome as [n Hn].
      pose proof (fold_attach_project_node ps (buildProjectMap ps) [] _ n Hn) as Hnode.
      eapply shown_child; [exact IH | exact Hnode |].
      cbn [children]. apply in_or_app. right. apply in_map.
      apply filter_In. split; [assumption|]. unfold goes_under. rewrite Hpar.
      unfold has_listed_parent in Eh. rewrite Hpar in Eh.
      apply andb_prop in Eh as [Eh _]. now rewrite String.eqb_refl, Eh.
    + apply shown_root. rewrite buildProjectTree_roots. apply in_map.
      apply filter_In. split; [assumption | now rewrite Eh].
Qed.

(** ** The further properties at concrete stores *)


Lemma assembleTasks_subtasks_exact_witness :
  fst (assembleTasks fetched_family) !! "par" = Some (mkNode fetched_parent ["sub"]).
Proof.
  apply (assembleTasks_subtasks_exact fetched_family fetched_parent).
  - simpl. solve_pkey.
  - left. reflexivity.
Defined.

Lemma buildProjectTree_shows_grounded_witness :
  shown (buildProjectTree [project_P; project_C]) "C".
Proof.
  apply (buildProjectTree_shows_grounded [project_P; project_C] project_C).
  apply grounded_child with (q := project_P).
  - right. left. reflexivity.
  - left. reflexivity.
  - reflexivity.
  - apply grounded_root; [left; reflexivity | reflexivity].
Defined.

(** * Properties of the requests *)

(** ** Policy expansion *)

(** With the policies of the migration no statement on any of the four
    tables gets past the rewriter: "Users can view shared projects" reads
    [project_shares], whose "Owners can manage shares" reads [projects]
    again, and every policy set holds a subquery on one of the two. *)
Lemma policies_never_expand (c : Command) (r : Relation) : policies_expand c r = false.
Proof. destruct c, r; reflexivity. Qed.



(** ** The UPDATE of one task, evaluated *)








(** ** Reading tasks *)

(** C1 at a concrete store.  Bob owns the inbox task H, so the claim makes
    it readable to him; the tasks query he sends is refused with 42P17,
    because the policies of the statement do not expand, and he reads
    nothing. *)
Theorem useTasks_refuses_own_inbox_read :
  In (sample_task "H" "bob" "secret") (tasks db_hidden)
  /\ Task.owner_id (sample_task "H" "bob" "secret") = "bob"
  /\ Task.project_id (sample_task "H" "bob" "secret") = None
  /\ Request.useTasks db_hidden "bob" inbox_options "2024-01-10" "2024-01-24"
     = Err invalid_object_definition.
Proof. repeat split; try reflexivity. left. reflexivity. Qed.


(** ** Completing a recurring task *)



(** ** Completing a cancelled task *)




(** ** Setting a predecessor *)




(** ** Deleting *)

(** C6 at a concrete store.  Alice owns P, its child C with the section S,
    and the tasks in them; her request to delete P is refused with 42P17
    and the store is as it was: P, C and S are still there and the tasks
    keep their project. *)
Theorem useDeleteProject_by_owner_is_refused :
  Project.owner_id project_P = "alice"
  /\ Request.useDeleteProject db_family "alice" "2024-02-01T00:00:00.000Z" "P"
     = (db_family, Err invalid_object_definition)
  /\ map Project.id
         (projects (fst (Request.useDeleteProject db_family "alice"
                           "2024-02-01T00:00:00.000Z" "P"))) = ["P"; "C"; "Q"]
  /\ map Section_.id
         (sections (fst (Request.useDeleteProject db_family "alice"
                           "2024-02-01T00:00:00.000Z" "P"))) = ["S"]
  /\ map (fun t => (Task.id t, Task.project_id t))
         (tasks (fst (Request.useDeleteProject db_family "alice"
                        "2024-02-01T00:00:00.000Z" "P")))
     = [("t1", Some "C"); ("t2", Some "P"); ("t3", None)].
Proof. repeat split; reflexivity. Qed.


(** ** The completion invariant *)



(** ** What a request cannot do *)
















(** ** The theorems on requests at concrete stores *)













